(** * Vartalaap: admin web client and conversation-engine contracts

  A shallow embedding of the TypeScript sources of the admin dashboard
  (web/src/lib, web/src/components, web/src/pages) and of the contracts of
  the per-call conversation engine, together with the properties stated
  about them.

  JavaScript strings are modelled as [string]: a sequence of code units.
  Every character the sources inspect ('/', '.', '-', '_', '=', digits,
  the sign characters) is ASCII, so the tests below read the same on UTF-16
  code units and on bytes. The one exception is the white space [parseInt]
  skips, which is read on code units: see [Reservations.isWhiteSpace]. *)

From Stdlib Require Import ZArith QArith Ascii Lia Bool.
From stdpp Require Import base option list strings gmap pretty.

Local Open Scope Z_scope.

(** ** JavaScript prelude: values, completions, string primitives *)

Module Js.

(** How a piece of JavaScript finishes: with a value, or by throwing. *)
Inductive completion (A : Type) : Type :=
| Return (a : A)
| Throw (err : string).
Arguments Return {A} a.
Arguments Throw {A} err.

Definition bind {A B} (c : completion A) (k : A -> completion B) : completion B :=
  match c with
  | Return a => k a
  | Throw e => Throw e
  end.

#[global] Instance completion_ret : MRet completion := @Return.
#[global] Instance completion_bind : MBind completion :=
  fun A B k c => bind c k.

(** [try { body } catch { return fallback }] *)
Definition try_catch {A} (body : completion A) (fallback : A) : completion A :=
  match body with
  | Return a => Return a
  | Throw _ => Return fallback
  end.

(** The values [JSON.parse] can produce, plus [undefined]. Numbers are kept
    as integers: the sources only look at their type and truthiness. An
    object lists its own properties, each key once. *)
#[warnings="-register-all"]
Inductive JsVal : Type :=
| JUndefined
| JNull
| JBool (b : bool)
| JNum (n : Z)
| JStr (s : string)
| JArr (items : list JsVal)
| JObj (props : list (string * JsVal)).

(** [s.startsWith(p)] *)
Definition startsWith (s p : string) : bool := String.prefix p s.

(** Truthiness of a string: only the empty string is falsy. *)
Definition truthy_str (s : string) : bool :=
  match s with
  | EmptyString => false
  | String _ _ => true
  end.

(** [x || d] where [x : string | undefined]. *)
Definition str_or (x : option string) (d : string) : string :=
  match x with
  | Some s => if truthy_str s then s else d
  | None => d
  end.

(** Truthiness of an arbitrary value ([ToBoolean]). *)
Definition truthy (v : JsVal) : bool :=
  match v with
  | JUndefined | JNull => false
  | JBool b => b
  | JNum n => negb (n =? 0)
  | JStr s => truthy_str s
  | JArr _ | JObj _ => true
  end.

Fixpoint assoc (k : string) (props : list (string * JsVal)) : JsVal :=
  match props with
  | [] => JUndefined
  | (k', v) :: rest => if String.eqb k k' then v else assoc k rest
  end.

(** [v.k] for a [v] that is neither [null] nor [undefined]: an own property
    of an object, [undefined] on anything else. *)
Definition get_prop (v : JsVal) (k : string) : JsVal :=
  match v with
  | JObj props => assoc k props
  | _ => JUndefined
  end.

End Js.

Import Js.

(** ** web/src/lib/auth.ts *)

Module Auth.

(** [import.meta.env]: the build-time configuration the client reads. *)
Record Env : Type := {
  VITE_KEYCLOAK_URL : option string;
  VITE_KEYCLOAK_REALM : option string;
  VITE_KEYCLOAK_CLIENT_ID : option string;
  VITE_BUSINESS_ID : option string;
  PROD : bool
}.

Definition authority (env : Env) : string :=
  match VITE_KEYCLOAK_URL env with
  | Some url =>
      if truthy_str url
      then url +:+ "/realms/" +:+ str_or (VITE_KEYCLOAK_REALM env) "vartalaap"
      else "http://localhost:8080/realms/vartalaap"
  | None => "http://localhost:8080/realms/vartalaap"
  end.

Definition clientId (env : Env) : string :=
  str_or (VITE_KEYCLOAK_CLIENT_ID env) "vartalaap-web".

Definition getOidcStorageKey (env : Env) : string :=
  "oidc.user:" +:+ authority env +:+ ":" +:+ clientId env.

(** The [state] object handed to [signinRedirect] and given back on return. *)
Record SigninState : Type := { returnTo : option string }.

(** The part of oidc-client-ts's [User] that the client reads. *)
Record User : Type := {
  state : option SigninState;
  profile : option (gmap string JsVal);
  access_token : string
}.

(** [onSigninCallback]: the result is the argument of
    [window.location.replace]. *)
Definition onSigninCallback (user : option User) : string :=
  let st := user ≫= state in
  let returnTo0 := str_or (st ≫= returnTo) "/" in
  if negb (startsWith returnTo0 "/") || startsWith returnTo0 "//"
  then "/"
  else returnTo0.

End Auth.

(** ** web/src/lib/business.ts *)

Module Business.
Import Auth.

Definition BUSINESS_STORAGE_KEY : string := "vartalaap.business_id".

(** [(id): id is string => typeof id === 'string' && id.length > 0] *)
Definition nonempty_string (id : JsVal) : option string :=
  match id with
  | JStr s => if truthy_str s then Some s else None
  | _ => None
  end.

Section WithOidcClient.

(** [User.fromStorageString] of oidc-client-ts: it parses the stored JSON and
    throws on text it cannot parse. *)
Variable fromStorageString : string -> completion User.

(** The body of the [try] block of [getBusinessIdFromAuthClaims];
    [None] is JavaScript's [null]. *)
Definition authClaimsBody (env : Env) (sessionStorage : gmap string string)
  : completion (option string) :=
  match sessionStorage !! getOidcStorageKey env with
  | None => Return None
  | Some oidcStorage =>
      if negb (truthy_str oidcStorage) then Return None
      else
        user ← fromStorageString oidcStorage;
        let profile := default ∅ (profile user) in
        match profile !! "business_ids" with
        | Some (JArr claimsBusinessIds) =>
            if (length claimsBusinessIds =? 0)%nat then Return None
            else
              let allowedBusinessIds := omap nonempty_string claimsBusinessIds in
              match allowedBusinessIds with
              | [] => Return None
              | first :: _ =>
                  match sessionStorage !! BUSINESS_STORAGE_KEY with
                  | Some selected =>
                      if truthy_str selected
                         && bool_decide (selected ∈ allowedBusinessIds)
                      then Return (Some selected)
                      else Return (Some first)
                  | None => Return (Some first)
                  end
              end
        | _ => Return None
        end
  end.

Definition getBusinessIdFromAuthClaims (env : Env)
    (sessionStorage : gmap string string) : completion (option string) :=
  try_catch (authClaimsBody env sessionStorage) None.

Definition not_configured : string :=
  "[Vartalaap] VITE_BUSINESS_ID not configured. " +:+
  "Set this in your .env file before deploying to production.".

(** What [getBusinessId] does once the claims gave nothing. The
    [console.warn] of the development branch is not modelled. *)
Definition envBusinessId (env : Env) : completion string :=
  match VITE_BUSINESS_ID env with
  | Some businessId =>
      if truthy_str businessId then Return businessId
      else if PROD env then Throw not_configured else Return "default"
  | None => if PROD env then Throw not_configured else Return "default"
  end.

Definition getBusinessId (env : Env) (sessionStorage : gmap string string)
  : completion string :=
  claimBusinessId ← getBusinessIdFromAuthClaims env sessionStorage;
  match claimBusinessId with
  | Some id => if truthy_str id then Return id else envBusinessId env
  | None => envBusinessId env
  end.

(** The non-empty string entries of the [business_ids] claim of the stored
    auth token; empty when no token is stored, when it cannot be parsed, or
    when the claim is missing or not an array. *)
Definition claimEntries (env : Env) (sessionStorage : gmap string string)
  : list string :=
  match sessionStorage !! getOidcStorageKey env with
  | Some oidcStorage =>
      if truthy_str oidcStorage then
        match fromStorageString oidcStorage with
        | Return user =>
            match default ∅ (profile user) !! "business_ids" with
            | Some (JArr ids) => omap nonempty_string ids
            | _ => []
            end
        | Throw _ => []
        end
      else []
  | None => []
  end.

End WithOidcClient.

End Business.

(** ** web/src/components/ProtectedRoute.tsx *)

Module ProtectedRoute.
Import Auth.

(** [s.split(sep)] for a one-character separator: never the empty list. *)
Fixpoint split (sep : ascii) (s : string) : list string :=
  match s with
  | EmptyString => [EmptyString]
  | String c rest =>
      if Ascii.eqb c sep then EmptyString :: split sep rest
      else match split sep rest with
           | [] => [String c EmptyString]
           | p :: ps => String c p :: ps
           end
  end.

(** [s.replace(/from/g, to)] for single characters. *)
Fixpoint replaceAll (from to : ascii) (s : string) : string :=
  match s with
  | EmptyString => EmptyString
  | String c rest =>
      String (if Ascii.eqb c from then to else c) (replaceAll from to rest)
  end.

(** ['='.repeat(n)] *)
Fixpoint repeatEq (n : nat) : string :=
  match n with
  | O => EmptyString
  | S k => String "=" (repeatEq k)
  end.

Definition hexDigit (n : N) : ascii :=
  (if n <? 10 then ascii_of_N (48 + n) else ascii_of_N (87 + n))%N.

(** ['%' + ('00' + c.charCodeAt(0).toString(16)).slice(-2)] for a character
    of a binary string (code below 256). *)
Definition percentByte (c : ascii) : string :=
  let n := N_of_ascii c in
  String "%" (String (hexDigit (n / 16)) (String (hexDigit (n mod 16)) EmptyString)).

Fixpoint percentEncode (bin : string) : string :=
  match bin with
  | EmptyString => EmptyString
  | String c rest => percentByte c +:+ percentEncode rest
  end.

Definition base64urlToPadded (part : string) : string :=
  let payload := replaceAll "_" "/" (replaceAll "-" "+" part) in
  let padding := ((4 - (String.length payload mod 4)) mod 4)%nat in
  payload +:+ repeatEq padding.

Inductive Rendered : Type :=
| Spinner
| AuthError (message : string)
| RedirectingToLogin
| Navigate (to : string)
| Outlet.

(** What [useAuth()] gives the component. *)
Record AuthState : Type := {
  isLoading : bool;
  error : option string;
  isAuthenticated : bool;
  user : option User
}.

Section WithBrowser.

(** The browser's [atob], [decodeURIComponent] and [JSON.parse]: each either
    returns or throws. *)
Variable atob : string -> completion string.
Variable decodeURIComponent : string -> completion string.
Variable JSON_parse : string -> completion JsVal.

Definition decodeJwtBody (token : string) : completion JsVal :=
  match split "." token with
  | [_; part; _] =>
      bin ← atob (base64urlToPadded part);
      decoded ← decodeURIComponent (percentEncode bin);
      JSON_parse decoded
  | _ => Return JNull
  end.

Definition decodeJwtPayload (token : string) : completion JsVal :=
  try_catch (decodeJwtBody token) JNull.

Definition getRolesFromAccessToken (accessToken : option string)
  : completion JsVal :=
  match accessToken with
  | None => Return (JArr [])
  | Some token =>
      if negb (truthy_str token) then Return (JArr [])
      else
        payload ← decodeJwtPayload token;
        if negb (truthy payload) then Return (JArr [])
        else
          let realmAccess := get_prop payload "realm_access" in
          let roles :=
            match realmAccess with
            | JUndefined | JNull => JUndefined
            | _ => get_prop realmAccess "roles"
            end in
          Return (if truthy roles then roles else JArr [])
  end.

(** [userRoles.includes(role)]: element search on an array, substring search
    on a string, a TypeError on anything else (no such method). *)
Definition includes (userRoles : JsVal) (role : string) : completion bool :=
  match userRoles with
  | JArr items =>
      Return (existsb (fun v => match v with
                                | JStr s => String.eqb s role
                                | _ => false
                                end) items)
  | JStr s =>
      Return (match String.index 0 role s with Some _ => true | None => false end)
  | _ => Throw "TypeError: userRoles.includes is not a function"
  end.

(** [roles.some((role) => userRoles.includes(role))] *)
Fixpoint someRole (roles : list string) (userRoles : JsVal) : completion bool :=
  match roles with
  | [] => Return false
  | role :: more =>
      hit ← includes userRoles role;
      if (hit : bool) then Return true else someRole more userRoles
  end.

(** The render function of the component. The sign-in redirect it starts
    from [useEffect] while unauthenticated is not part of the result. *)
Definition ProtectedRoute (roles : option (list string)) (auth : AuthState)
  : completion Rendered :=
  if isLoading auth then Return Spinner
  else match error auth with
  | Some message => Return (AuthError message)
  | None =>
      if negb (isAuthenticated auth) then Return RedirectingToLogin
      else match roles with
      | Some ((_ :: _) as required) =>
          userRoles ← getRolesFromAccessToken (access_token <$> user auth);
          hasRequiredRole ← someRole required userRoles;
          if (hasRequiredRole : bool) then Return Outlet
          else Return (Navigate "/unauthorized")
      | _ => Return Outlet
      end
  end.

(** A three-part token whose middle part goes through all three decoders. *)
Definition wellFormedJwt (token : string) : Prop :=
  exists header part signature bin decoded v,
    split "." token = [header; part; signature] /\
    atob (base64urlToPadded part) = Return bin /\
    decodeURIComponent (percentEncode bin) = Return decoded /\
    JSON_parse decoded = Return v.

End WithBrowser.

End ProtectedRoute.

(** ** web/src/pages/Reservations.tsx *)

Module Reservations.

(** ECMAScript's [StrWhiteSpaceChar], as far as a code unit of [string]
    reaches: tab, line feed, vertical tab, form feed, carriage return, space
    and the no-break space (160). Its other members (U+1680, U+2000 to
    U+200A, U+2028, U+2029, U+202F, U+205F, U+3000, U+FEFF) lie above 255. *)
Definition isWhiteSpace (c : ascii) : bool :=
  match N_of_ascii c with
  | 9%N | 10%N | 11%N | 12%N | 13%N | 32%N | 160%N => true
  | _ => false
  end.

Fixpoint trimStart (s : string) : string :=
  match s with
  | EmptyString => EmptyString
  | String c rest => if isWhiteSpace c then trimStart rest else s
  end.

(** The value of a character as a digit in the given radix. *)
Definition digitValue (radix : Z) (c : ascii) : option Z :=
  let n := Z.of_N (N_of_ascii c) in
  let v :=
    if (48 <=? n) && (n <=? 57) then n - 48
    else if (97 <=? n) && (n <=? 122) then n - 87
    else if (65 <=? n) && (n <=? 90) then n - 55
    else 36 in
  if v <? radix then Some v else None.

(** The longest prefix of digits, read in the radix; [None] when the prefix
    is empty. *)
Fixpoint parseDigits (radix : Z) (acc : option Z) (s : string) : option Z :=
  match s with
  | EmptyString => acc
  | String c rest =>
      match digitValue radix c with
      | Some d => parseDigits radix (Some (radix * default 0 acc + d)) rest
      | None => acc
      end
  end.

(** [parseInt(s)] without a radix argument; [None] is [NaN]. The result is
    the exact integer: JavaScript rounds it to the nearest double beyond
    2^53, which changes neither its sign nor whether it is zero. *)
Definition parseInt (s : string) : option Z :=
  let s1 := trimStart s in
  let '(sign, s2) :=
    match s1 with
    | String "-" rest => (-1, rest)
    | String "+" rest => (1, rest)
    | _ => (1, s1)
    end in
  let '(radix, s3) :=
    match s2 with
    | String "0" (String "x" rest) => (16, rest)
    | String "0" (String "X" rest) => (16, rest)
    | _ => (10, s2)
    end in
  Z.mul sign <$> parseDigits radix None s3.

(** [n || 1] on a number: [NaN] and zero are falsy. *)
Definition orOne (n : option Z) : Z :=
  match n with
  | Some v => if v =? 0 then 1 else v
  | None => 1
  end.

(** The [newReservation] state of the Add Reservation dialog. *)
Record NewReservation : Type := {
  customer_name : string;
  party_size : Z;
  reservation_date : string;
  reservation_time : string
}.

(** [useState] initial value; [today] is [getLocalDateString()]. *)
Definition initialReservation (today : string) : NewReservation :=
  {| customer_name := "";
     party_size := 2;
     reservation_date := today;
     reservation_time := "19:00" |}.

(** The [onChange] handlers of the four inputs, by the text typed. *)
Inductive FormEvent : Type :=
| CustomerNameChange (value : string)
| PartySizeChange (value : string)
| DateChange (value : string)
| TimeChange (value : string).

Definition onChange (st : NewReservation) (e : FormEvent) : NewReservation :=
  match e with
  | CustomerNameChange value =>
      {| customer_name := value;
         party_size := party_size st;
         reservation_date := reservation_date st;
         reservation_time := reservation_time st |}
  | PartySizeChange value =>
      {| customer_name := customer_name st;
         party_size := orOne (parseInt value);
         reservation_date := reservation_date st;
         reservation_time := reservation_time st |}
  | DateChange value =>
      {| customer_name := customer_name st;
         party_size := party_size st;
         reservation_date := value;
         reservation_time := reservation_time st |}
  | TimeChange value =>
      {| customer_name := customer_name st;
         party_size := party_size st;
         reservation_date := reservation_date st;
         reservation_time := value |}
  end.

(** The body of the create request. *)
Record ReservationCreate : Type := {
  rc_business_id : string;
  rc_customer_name : option string;
  rc_party_size : Z;
  rc_reservation_date : string;
  rc_reservation_time : string
}.

(** [handleCreateReservation]: the [data] handed to the create mutation. *)
Definition handleCreateReservation (businessId : string) (st : NewReservation)
  : ReservationCreate :=
  {| rc_business_id := businessId;
     rc_customer_name :=
       if truthy_str (customer_name st) then Some (customer_name st) else None;
     rc_party_size := party_size st;
     rc_reservation_date := reservation_date st;
     rc_reservation_time := reservation_time st |}.

(** Opening the dialog, typing, and pressing Create Reservation. *)
Definition addReservation (businessId today : string) (typed : list FormEvent)
  : ReservationCreate :=
  handleCreateReservation businessId
    (fold_left onChange typed (initialReservation today)).

End Reservations.

(** ** web/src/pages/CallLogs.tsx *)

Module CallLogs.

Inductive Icon : Type := CheckCircle | AlertTriangle | XCircle.

Definition outcomeColors : gmap string string :=
  list_to_map [
    ("resolved", "bg-green-100 text-green-800 dark:bg-green-900 dark:text-green-300");
    ("fallback", "bg-yellow-100 text-yellow-800 dark:bg-yellow-900 dark:text-yellow-300");
    ("dropped", "bg-red-100 text-red-800 dark:bg-red-900 dark:text-red-300");
    ("error", "bg-red-100 text-red-800 dark:bg-red-900 dark:text-red-300");
    ("privacy_opt_out", "bg-gray-100 text-gray-800 dark:bg-gray-900 dark:text-gray-300")
  ].

Definition outcomeIcons : gmap string Icon :=
  list_to_map [
    ("resolved", CheckCircle);
    ("fallback", AlertTriangle);
    ("dropped", XCircle);
    ("error", XCircle);
    ("privacy_opt_out", XCircle)
  ].

Definition outcomeOptions : list string :=
  ["all"; "resolved"; "fallback"; "dropped"; "error"; "privacy_opt_out"].

(** [outcomeIcons[log.outcome || 'error'] || XCircle] *)
Definition outcomeIcon (outcome : option string) : Icon :=
  default XCircle (outcomeIcons !! str_or outcome "error").

(** [outcomeColors[log.outcome || 'error']]; [None] is [undefined]. The
    lookup is among the keys the table itself lists: an outcome text that
    names a property every object inherits (such as constructor) is outside
    this model, here and in [outcomeIcon]. *)
Definition outcomeColor (outcome : option string) : option string :=
  outcomeColors !! str_or outcome "error".

(** The outcome values of a finished call, as the session orchestrator's
    closing step lists them. *)
Definition sessionOutcomes : list string :=
  ["resolved"; "fallback"; "dropped"; "error"; "privacy_opt_out"].

End CallLogs.

(** ** web/src/pages/Settings.tsx: operating hours *)

Module Settings.

Definition DAYS : list string :=
  ["monday"; "tuesday"; "wednesday"; "thursday"; "friday"; "saturday"; "sunday"].

(** One entry of [OperatingHoursForm]. *)
Record DayForm : Type := {
  open : string;
  close : string;
  closed : bool
}.

(** One entry of the API's [operating_hours]: a string, or an object whose
    [open] and [close] may be missing. *)
Inductive ApiDayHours : Type :=
| ApiText (text : string)
| ApiOpenClose (open close : option string).

Definition lowerChar (c : ascii) : ascii :=
  let n := N_of_ascii c in
  if ((65 <=? n) && (n <=? 90))%N then ascii_of_N (n + 32) else c.

(** [s.toLowerCase()]; only the ASCII letters matter for a comparison with
    'closed'. *)
Fixpoint toLowerCase (s : string) : string :=
  match s with
  | EmptyString => EmptyString
  | String c rest => String (lowerChar c) (toLowerCase rest)
  end.

(** The three branches of the load loop for one day. *)
Definition parseDay (dayHours : option ApiDayHours) : DayForm :=
  match dayHours with
  | Some (ApiText text) =>
      if String.eqb (toLowerCase text) "closed"
      then {| open := ""; close := ""; closed := true |}
      else {| open := "11:00"; close := "22:30"; closed := false |}
  | Some (ApiOpenClose o c) =>
      {| open := default "" o; close := default "" c; closed := false |}
  | None => {| open := "11:00"; close := "22:30"; closed := false |}
  end.

(** The load loop of [useEffect]: [operating_hours] of the fetched business
    (possibly missing) to the form state. *)
Definition parseOperatingHours (operating_hours : option (gmap string ApiDayHours))
  : gmap string DayForm :=
  foldl (fun hours day =>
           <[day := parseDay (operating_hours ≫= (fun h => h !! day))]> hours)
        ∅ DAYS.

(** The save loop of [handleSave]: the form state to [hoursForApi]. *)
Definition hoursForApi (operatingHours : gmap string DayForm)
  : gmap string ApiDayHours :=
  foldl (fun acc day =>
           match operatingHours !! day with
           | Some dayHours =>
               if closed dayHours then <[day := ApiText "closed"]> acc
               else <[day := ApiOpenClose (Some (open dayHours))
                                          (Some (close dayHours))]> acc
           | None => acc
           end)
        ∅ DAYS.

(** What the form shows for a day: [operatingHours[day]?.closed ?? false],
    [operatingHours[day]?.open ?? ''], [operatingHours[day]?.close ?? '']. *)
Definition shownClosed (operatingHours : gmap string DayForm) (day : string) : bool :=
  default false (closed <$> operatingHours !! day).

Definition shownOpen (operatingHours : gmap string DayForm) (day : string) : string :=
  default "" (open <$> operatingHours !! day).

Definition shownClose (operatingHours : gmap string DayForm) (day : string) : string :=
  default "" (close <$> operatingHours !! day).

(** Saving and loading again. *)
Definition saveThenLoad (operatingHours : gmap string DayForm) : gmap string DayForm :=
  parseOperatingHours (Some (hoursForApi operatingHours)).

(** The round-trip statement for one form state: every weekday keeps its
    closed flag, and every weekday not marked closed keeps its open and close
    times. *)
Definition roundTripRestores (operatingHours : gmap string DayForm) : Prop :=
  Forall (fun day =>
            shownClosed (saveThenLoad operatingHours) day
              = shownClosed operatingHours day /\
            (shownClosed operatingHours day = false ->
             shownOpen (saveThenLoad operatingHours) day
               = shownOpen operatingHours day /\
             shownClose (saveThenLoad operatingHours) day
               = shownClose operatingHours day))
         DAYS.

End Settings.

(** ** Conversation engine: availability engine

    The engine is modelled from its specification (sections 3, 4.1 to 4.3
    and 4.5). Dates are days since 1970-01-01, times of day are minutes after
    midnight, instants are minutes since the epoch. *)

Module Availability.

(** Modelled from the spec: the weekdays that operating hours are given
    for. *)
Inductive Weekday : Type :=
  Monday | Tuesday | Wednesday | Thursday | Friday | Saturday | Sunday.

(** Modelled from the spec: the weekday of a date, which the engine needs for
    "weekday not marked closed"; 1970-01-01 was a Thursday. *)
Definition weekdayOf (date : Z) : Weekday :=
  match (date + 3) mod 7 with
  | 0 => Monday | 1 => Tuesday | 2 => Wednesday | 3 => Thursday
  | 4 => Friday | 5 => Saturday | _ => Sunday
  end.

(** Modelled from the spec: BusinessRuleSet, "operating hours per weekday,
    closed dates, total seat capacity, dining-window minutes, buffer minutes
    between seatings, min/max advance-booking bounds, max phone-party size,
    peak-hour windows with a stricter max party size". A weekday without
    hours is marked closed. *)
Record BusinessRuleSet : Type := {
  operatingHours : Weekday -> option (Z * Z);
  closedDates : list Z;
  totalSeats : Z;
  diningWindow : Z;
  buffer : Z;
  minAdvanceBookingMinutes : Z;
  maxAdvanceBookingDays : Z;
  maxPhonePartySize : Z;
  peakWindows : list (Z * Z);
  peakMaxPartySize : Z
}.

(** Modelled from the spec: one existing confirmed booking of the snapshot
    for the target date. *)
Record Booking : Type := {
  bookingTime : Z;
  bookingPartySize : Z
}.

(** Modelled from the spec: the six outcomes of AvailabilityResult. *)
Inductive Code : Type :=
| Available
| RejectedClosed
| RejectedOutsideHours
| RejectedTooSoon
| RejectedPartyTooLarge
| RejectedCapacity.

(** Modelled from the spec: the five checks of the algorithm. *)
Inductive CheckId : Type :=
| ClosedCheck
| HoursCheck
| AdvanceCheck
| PartySizeCheck
| CapacityCheck.

(** Modelled from the spec: AvailabilityResult, an outcome plus suggested
    alternative times; [evaluated] records which checks were run. *)
Record AvailabilityResult : Type := {
  code : Code;
  suggestions : list Z;
  evaluated : list CheckId
}.

(** Modelled from the spec: what lies outside the five arguments of [check]:
    the current instant that check 3 compares against, and the shared view of
    confirmed bookings that a commit (not the engine) writes to. *)
Record World : Type := {
  now : Z;
  confirmedView : list Booking
}.

(** Modelled from the spec: "in order", checks 1 to 5. *)
Definition checkOrder : list CheckId :=
  [ClosedCheck; HoursCheck; AdvanceCheck; PartySizeCheck; CapacityCheck].

(** Modelled from the spec: the rejection each check stands for. *)
Definition rejection (c : CheckId) : Code :=
  match c with
  | ClosedCheck => RejectedClosed
  | HoursCheck => RejectedOutsideHours
  | AdvanceCheck => RejectedTooSoon
  | PartySizeCheck => RejectedPartyTooLarge
  | CapacityCheck => RejectedCapacity
  end.

(** Modelled from the spec: two intervals [[t, t+diningWindow+buffer)]
    overlap. *)
Definition overlaps (rules : BusinessRuleSet) (t1 t2 : Z) : bool :=
  let len := diningWindow rules + buffer rules in
  (t1 <? t2 + len) && (t2 <? t1 + len).

(** Modelled from the spec: the seats taken by the existing bookings that
    overlap a seating at [time]. *)
Definition seatsTaken (rules : BusinessRuleSet) (existing : list Booking)
    (time : Z) : Z :=
  foldr (fun b acc =>
           if overlaps rules (bookingTime b) time
           then bookingPartySize b + acc else acc)
        0 existing.

(** Modelled from the spec: "requested time falls in a configured peak
    window". *)
Definition inPeakWindow (rules : BusinessRuleSet) (time : Z) : bool :=
  existsb (fun w => (w.1 <=? time) && (time <? w.2)) (peakWindows rules).

(** Modelled from the spec: whether the request passes one of the checks
    1 to 5 of the algorithm. *)
Definition passes (w : World) (rules : BusinessRuleSet) (existing : list Booking)
    (date time partySize : Z) (c : CheckId) : bool :=
  match c with
  | ClosedCheck =>
      negb (bool_decide (date ∈ closedDates rules))
      && bool_decide (is_Some (operatingHours rules (weekdayOf date)))
  | HoursCheck =>
      match operatingHours rules (weekdayOf date) with
      | Some (opens, closes) => (opens <=? time) && (time <=? closes)
      | None => false
      end
  | AdvanceCheck =>
      let start := date * 1440 + time in
      (now w + minAdvanceBookingMinutes rules <=? start)
      && (start <=? now w + maxAdvanceBookingDays rules * 1440)
  | PartySizeCheck =>
      (partySize <=? maxPhonePartySize rules)
      && (negb (inPeakWindow rules time) || (partySize <=? peakMaxPartySize rules))
  | CapacityCheck =>
      seatsTaken rules existing time + partySize <=? totalSeats rules
  end.

(** Modelled from the spec: "first failing check short-circuits". The checks
    are run in order up to and including the first that fails; the result is
    the checks run and the failing one, if any. *)
Fixpoint runChecks (pass : CheckId -> bool) (todo : list CheckId)
  : list CheckId * option CheckId :=
  match todo with
  | [] => ([], None)
  | c :: rest =>
      if pass c
      then let '(ran, failed) := runChecks pass rest in (c :: ran, failed)
      else ([c], Some c)
  end.

(** Modelled from the spec: "nearest earlier and later slot, at 30-minute
    granularity, that do pass this check". The spec gives no bound for the
    search; it is taken to stay within the requested day. *)
Definition nearestSlot (rules : BusinessRuleSet) (existing : list Booking)
    (time partySize step : Z) : option Z :=
  List.find
    (fun t => (0 <=? t) && (t <? 1440)
              && (seatsTaken rules existing t + partySize <=? totalSeats rules))
    (map (fun k => time + step * Z.of_nat k) (seq 1 48)).

(** Modelled from the spec: "up to two alternative times", the earlier one
    first. *)
Definition alternatives (rules : BusinessRuleSet) (existing : list Booking)
    (time partySize : Z) : list Z :=
  option_list (nearestSlot rules existing time partySize (-30))
  ++ option_list (nearestSlot rules existing time partySize 30).

(** Modelled from the spec: [check(rules, existingBookings, date, time,
    partySize)]. It is run in a world and hands the world back: committing a
    booking is not the engine's business. *)
Definition check (w : World) (rules : BusinessRuleSet) (existing : list Booking)
    (date time partySize : Z) : AvailabilityResult * World :=
  let '(ran, failed) :=
    runChecks (passes w rules existing date time partySize) checkOrder in
  ({| code := from_option rejection Available failed;
      suggestions :=
        match failed with
        | Some CapacityCheck => alternatives rules existing time partySize
        | _ => []
        end;
      evaluated := ran |},
   w).

End Availability.

(** ** Conversation engine: slot store *)

Module SlotStore.

(** Modelled from the spec: SlotSet, "party size (int >= 1, nullable until
    set), date (nullable), time (nullable), customer name (nullable), special
    requests (free text, nullable)". An extraction result has the same shape,
    [None] standing for a field the caller did not mention. *)
Record SlotSet : Type := {
  partySize : option positive;
  date : option Z;
  time : option Z;
  customerName : option string;
  specialRequests : option string
}.

(** Modelled from the spec: the fields of a SlotSet and the type of value
    each holds. *)
Inductive Field : Type :=
  PartySize | Date | Time | CustomerName | SpecialRequests.

Definition valueOf (f : Field) : Type :=
  match f with
  | PartySize => positive
  | Date | Time => Z
  | CustomerName | SpecialRequests => string
  end.

#[global] Instance valueOf_eq_dec (f : Field) : EqDecision (valueOf f) :=
  match f with
  | PartySize => Pos.eq_dec
  | Date | Time => Z.eq_dec
  | CustomerName | SpecialRequests => String.eq_dec
  end.

Definition get (f : Field) (s : SlotSet) : option (valueOf f) :=
  match f with
  | PartySize => partySize s
  | Date => date s
  | Time => time s
  | CustomerName => customerName s
  | SpecialRequests => specialRequests s
  end.

(** Modelled from the spec: what an extraction did to one field. *)
Inductive Change : Type := Untouched | Filled | Corrected.

(** Modelled from the spec: the changeset [applyExtraction] returns, one mark
    per field. *)
Record Changeset : Type := {
  partySizeChange : Change;
  dateChange : Change;
  timeChange : Change;
  customerNameChange : Change;
  specialRequestsChange : Change
}.

Definition changeOf (f : Field) (c : Changeset) : Change :=
  match f with
  | PartySize => partySizeChange c
  | Date => dateChange c
  | Time => timeChange c
  | CustomerName => customerNameChange c
  | SpecialRequests => specialRequestsChange c
  end.

(** Modelled from the spec: "For each field present in the extraction result:
    if the session has no existing value, set it; if a value exists and the
    new value differs, this is a correction: overwrite and mark the field as
    corrected. Fields absent from the extraction leave existing values
    untouched." *)
Definition applyField {A} `{EqDecision A} (asserted existing : option A)
  : option A * Change :=
  match asserted, existing with
  | None, _ => (existing, Untouched)
  | Some v, None => (Some v, Filled)
  | Some v, Some old =>
      if decide (v = old) then (existing, Untouched) else (Some v, Corrected)
  end.

(** Modelled from the spec: [applyExtraction(fields)], each field applied on
    its own. *)
Definition applyExtraction (fields : SlotSet) (slots : SlotSet)
  : SlotSet * Changeset :=
  let p := applyField (partySize fields) (partySize slots) in
  let d := applyField (date fields) (date slots) in
  let t := applyField (time fields) (time slots) in
  let n := applyField (customerName fields) (customerName slots) in
  let r := applyField (specialRequests fields) (specialRequests slots) in
  ({| partySize := p.1; date := d.1; time := t.1;
      customerName := n.1; specialRequests := r.1 |},
   {| partySizeChange := p.2; dateChange := d.2; timeChange := t.2;
      customerNameChange := n.2; specialRequestsChange := r.2 |}).

(** Modelled from the spec: a sequence of extraction results, one per
    finalized utterance, applied one after the other. *)
Definition applyAll (extractions : list SlotSet) (slots : SlotSet) : SlotSet :=
  foldl (fun s fields => (applyExtraction fields s).1) slots extractions.

(** Modelled from the spec: "the last asserted value for that field" in a
    sequence, if there is one. *)
Definition lastAsserted (f : Field) (extractions : list SlotSet)
  : option (valueOf f) :=
  last (omap (get f) extractions).

End SlotStore.

(** ** Conversation engine: language detector and utterance intake *)

Module LanguageDetector.
Import SlotStore.

(** Modelled from the spec: the labels [hindi], [english], [hinglish]. *)
Inductive Label : Type := Hindi | English | Hinglish.

(** Modelled from the spec: the tokens of an utterance, taken to be its
    space-separated words. *)
Fixpoint tokensFrom (current : string) (u : string) : list string :=
  match u with
  | EmptyString =>
      match current with EmptyString => [] | _ => [current] end
  | String c rest =>
      if Ascii.eqb c " "
      then match current with
           | EmptyString => tokensFrom EmptyString rest
           | _ => current :: tokensFrom EmptyString rest
           end
      else tokensFrom (current +:+ String c EmptyString) rest
  end.

Definition tokens (u : string) : list string := tokensFrom EmptyString u.

(** Modelled from the spec: the per-call state the orchestrator owns, as far
    as language and slots go. *)
Record Session : Type := {
  slots : SlotSet;
  language : option Label;
  languageConfidence : Q
}.

Section Detector.

(** Modelled from the spec: the fixed stoplist of filler tokens, the
    classifier of substantive utterances and the slot extraction step; the
    spec names them and leaves their content to the implementation. *)
Variable stoplist : list string.
Variable classify : string -> Label * Q.
Variable extract : string -> SlotSet.

(** Modelled from the spec: an utterance "composed only of filler tokens". *)
Definition fillerOnly (u : string) : bool :=
  forallb (fun t => bool_decide (t ∈ stoplist)) (tokens u).

(** Modelled from the spec: [detect(utteranceText, priorLabel,
    priorConfidence)]; filler-only utterances "return the prior label
    unchanged with unchanged confidence". *)
Definition detect (u : string) (priorLabel : option Label) (priorConfidence : Q)
  : option Label * Q :=
  if fillerOnly u then (priorLabel, priorConfidence)
  else let '(label, confidence) := classify u in (Some label, confidence).

(** Modelled from the spec: the confidence bands. Above 0.85 and between 0.70
    and 0.85 the detected label is adopted; below 0.70 the previous label is
    kept, "defaulting to hindi if no previous label exists". *)
Definition adopt (previous detected : option Label) (confidence : Q)
  : option Label :=
  if Qle_bool (7 # 10) confidence then detected
  else Some (default Hindi previous).

(** Modelled from the spec: intake of one finalized utterance. A filler-only
    utterance starts no turn and never reaches extraction; a substantive one
    has the bands re-evaluated and its extraction applied to the slots. *)
Definition processUtterance (s : Session) (u : string) : Session :=
  let '(label, confidence) := detect u (language s) (languageConfidence s) in
  if fillerOnly u
  then {| slots := slots s; language := label; languageConfidence := confidence |}
  else {| slots := (applyExtraction (extract u) (slots s)).1;
          language := adopt (language s) label confidence;
          languageConfidence := confidence |}.

End Detector.

End LanguageDetector.

(** ** Fixtures: the scenarios of the testable properties *)

Module Scenario.
Import Availability.

(** Rules "closedDays: [monday], hours: tue-sun 11:00-22:30, totalSeats: 40,
    diningWindow: 90, buffer: 15"; the bounds the scenario leaves open are
    those the Settings page saves (30 days ahead, phone parties up to 10). *)
Definition rules : BusinessRuleSet :=
  {| operatingHours := fun d =>
       match d with Monday => None | _ => Some (11 * 60, 22 * 60 + 30) end;
     closedDates := [];
     totalSeats := 40;
     diningWindow := 90;
     buffer := 15;
     minAdvanceBookingMinutes := 60;
     maxAdvanceBookingDays := 30;
     maxPhonePartySize := 10;
     peakWindows := [];
     peakMaxPartySize := 10 |}.

(** 2026-02-02, a Monday, and 2026-02-03, a Tuesday. *)
Definition monday : Z := 20486.
Definition tuesday : Z := 20487.

(** Sunday 2026-02-01 at 10:00. *)
Definition sundayMorning : World :=
  {| now := 20485 * 1440 + 10 * 60; confirmedView := [] |}.

(** Bookings that sum to 38 seats around 20:00. *)
Definition busyEvening : list Booking :=
  [ {| bookingTime := 19 * 60 + 30; bookingPartySize := 20 |};
    {| bookingTime := 20 * 60; bookingPartySize := 18 |} ].

End Scenario.

(** ** Fixtures: a browser and a stored session *)

Module Browser.
Import Auth.

(** The value of a character of the base64 alphabet. *)
Definition sextet (c : ascii) : option N :=
  let n := N_of_ascii c in
  (if (65 <=? n) && (n <=? 90) then Some (n - 65)
   else if (97 <=? n) && (n <=? 122) then Some (n - 71)
   else if (48 <=? n) && (n <=? 57) then Some (n + 4)
   else if n =? 43 then Some 62
   else if n =? 47 then Some 63
   else None)%N.

Fixpoint dropTrailingEq (n : nat) (rev_chars : list ascii) : list ascii :=
  match n, rev_chars with
  | S k, c :: rest => if Ascii.eqb c "=" then dropTrailingEq k rest else rev_chars
  | _, _ => rev_chars
  end.

Fixpoint decodeSextets (l : list N) : option (list ascii) :=
  match l with
  | [] => Some []
  | [_] => None
  | [a; b] => Some [ascii_of_N (a * 4 + b / 16)]
  | [a; b; c] =>
      Some [ascii_of_N (a * 4 + b / 16); ascii_of_N ((b mod 16) * 16 + c / 4)]
  | a :: b :: c :: d :: rest =>
      tail ← decodeSextets rest;
      Some (ascii_of_N (a * 4 + b / 16)
            :: ascii_of_N ((b mod 16) * 16 + c / 4)
            :: ascii_of_N ((c mod 4) * 64 + d) :: tail)
  end%N.

(** ASCII whitespace: tab, line feed, form feed, carriage return, space. *)
Definition isAsciiWhitespace (c : ascii) : bool :=
  match N_of_ascii c with
  | 9%N | 10%N | 12%N | 13%N | 32%N => true
  | _ => false
  end.

(** [atob]: forgiving base64 decoding. *)
Definition atob (data : string) : completion string :=
  let chars :=
    List.filter (fun c => negb (isAsciiWhitespace c))
                (String.list_ascii_of_string data) in
  let chars :=
    if (length chars mod 4 =? 0)%nat
    then rev (dropTrailingEq 2 (rev chars)) else chars in
  match mapM sextet chars ≫= decodeSextets with
  | Some bytes => Return (String.string_of_list_ascii bytes)
  | None => Throw "InvalidCharacterError"
  end.

Definition hexValue (c : ascii) : option N :=
  N.of_nat <$> (Z.to_nat <$> Reservations.digitValue 16 c).

Fixpoint unescape (s : string) : option (list N) :=
  match s with
  | EmptyString => Some []
  | String "%" (String h (String l rest)) =>
      hi ← hexValue h; lo ← hexValue l; tail ← unescape rest;
      Some ((hi * 16 + lo)%N :: tail)
  | String "%" _ => None
  | String c rest => tail ← unescape rest; Some (N_of_ascii c :: tail)
  end.

(** The shape of UTF-8: a lead byte and the continuation bytes it asks for. *)
Fixpoint utf8Shape (pending : nat) (bytes : list N) : bool :=
  match bytes with
  | [] => match pending with O => true | _ => false end
  | b :: rest =>
      match pending with
      | S k => ((128 <=? b) && (b <? 192))%N && utf8Shape k rest
      | O =>
          (if b <? 128 then utf8Shape 0 rest
           else if (194 <=? b) && (b <? 224) then utf8Shape 1 rest
           else if (224 <=? b) && (b <? 240) then utf8Shape 2 rest
           else if (240 <=? b) && (b <? 245) then utf8Shape 3 rest
           else false)%N
      end
  end.

(** [decodeURIComponent]: the escapes are resolved and must spell UTF-8. *)
Definition decodeURIComponent (s : string) : completion string :=
  match unescape s with
  | Some bytes =>
      if utf8Shape 0 bytes
      then Return (String.string_of_list_ascii (ascii_of_N <$> bytes))
      else Throw "URIError"
  | None => Throw "URIError"
  end.

(** [JSON.parse] on the scalar texts [null], [true], [false] and unsigned
    integers (a zero only on its own, never in front of other digits);
    every other text is refused here. *)
Definition JSON_parse (text : string) : completion JsVal :=
  if String.eqb text "null" then Return JNull
  else if String.eqb text "true" then Return (JBool true)
  else if String.eqb text "false" then Return (JBool false)
  else match text with
       | String "0" (String _ _) => Throw "SyntaxError"
       | _ =>
           match Reservations.parseDigits 10 None text with
           | Some n =>
               if forallb (fun c => bool_decide (is_Some (Reservations.digitValue 10 c)))
                          (String.list_ascii_of_string text)
               then Return (JNum n) else Throw "SyntaxError"
           | None => Throw "SyntaxError"
           end
       end.

(** [window.location.replace(url)] resolves [url] against the address of the
    page with the basic URL parser of the URL Standard. For a page served
    over http or https and a [url] without a scheme: leading C0 control
    characters and spaces are dropped and every ASCII tab and newline is
    removed; then the relative and relative-slash states read the first two
    code points, each of which may be a slash or a backslash. When both are,
    what follows is parsed as an authority: the navigation goes to that host.
    Otherwise [url] keeps scheme, host and port of the page. *)
Definition isC0ControlOrSpace (c : ascii) : bool := (N_of_ascii c <=? 32)%N.

Definition isTabOrNewline (c : ascii) : bool :=
  match N_of_ascii c with
  | 9%N | 10%N | 13%N => true
  | _ => false
  end.

Definition isSlashOrBackslash (c : ascii) : bool :=
  Ascii.eqb c "/" || Ascii.eqb c "\".

Fixpoint dropLeading (chars : list ascii) : list ascii :=
  match chars with
  | c :: rest => if isC0ControlOrSpace c then dropLeading rest else chars
  | [] => []
  end.

Definition namesAuthority (url : string) : bool :=
  match List.filter (fun c => negb (isTabOrNewline c))
          (dropLeading (String.list_ascii_of_string url)) with
  | a :: b :: _ => isSlashOrBackslash a && isSlashOrBackslash b
  | _ => false
  end.

(** A stored user whose token claims two usable business ids among other
    entries. *)
Definition storedUser : User :=
  {| state := Some {| returnTo := Some "https://evil.example/" |};
     profile := Some {[ "business_ids" :=
                          JArr [JStr "biz-a"; JStr ""; JNum 7; JStr "biz-b"] ]};
     access_token := "only-two.parts" |}.

(** [User.fromStorageString] on a store that holds one user. *)
Definition fromStorageString (stored : string) : completion User :=
  if String.eqb stored "stored-user" then Return storedUser
  else Throw "SyntaxError".

Definition devEnv : Env :=
  {| VITE_KEYCLOAK_URL := None; VITE_KEYCLOAK_REALM := None;
     VITE_KEYCLOAK_CLIENT_ID := None; VITE_BUSINESS_ID := None;
     PROD := false |}.

Definition sessionStorage : gmap string string :=
  {[ getOidcStorageKey devEnv := "stored-user";
     Business.BUSINESS_STORAGE_KEY := "biz-b" ]}.

Definition signedIn : ProtectedRoute.AuthState :=
  {| ProtectedRoute.isLoading := false;
     ProtectedRoute.error := None;
     ProtectedRoute.isAuthenticated := true;
     ProtectedRoute.user := Some storedUser |}.

End Browser.

(** ** web/src/components/ProtectedRoute.tsx: the sign-in redirect effect *)

Module SigninRedirect.
Import Auth ProtectedRoute.

(** What [useLocation()] gives. *)
Record Location : Type := {
  pathname : string;
  search : string;
  hash : string
}.

(** One run of the body of [useEffect]. [redirecting] is
    [redirectingRef.current] before the run; the result is the ref after the
    run and the [state] handed to [auth.signinRedirect] when it is called. *)
Definition redirectEffect (auth : AuthState) (location : Location)
    (redirecting : bool) : bool * option SigninState :=
  if negb (isLoading auth) && negb (isAuthenticated auth)
     && negb (bool_decide (is_Some (error auth))) && negb redirecting
  then (true,
        Some {| returnTo :=
                  Some (pathname location +:+ search location +:+ hash location) |})
  else (redirecting, None).

(** The runs of the effect while the component stays mounted, each with the
    auth state and location of that render: the sign-in redirects started. *)
Fixpoint redirectsStarted (runs : list (AuthState * Location))
    (redirecting : bool) : list SigninState :=
  match runs with
  | [] => []
  | (auth, location) :: more =>
      let '(redirecting', started) := redirectEffect auth location redirecting in
      option_list started ++ redirectsStarted more redirecting'
  end.

(** The user oidc-client-ts hands to [onSigninCallback] after a redirect
    started with [st]: the library gives the [state] back as it got it. *)
Definition returningUser (st : SigninState) (token : string) : User :=
  {| state := Some st; profile := None; access_token := token |}.

End SigninRedirect.

(** ** web/src/api/mutator/custom-instance.ts *)

Module CustomInstance.
Import Auth.

Section WithOidcClient.

Variable fromStorageString : string -> completion User.

(** [getUser]: the user react-oidc-context stored, [None] for [null]. *)
Definition getUser (env : Env) (sessionStorage : gmap string string)
  : completion (option User) :=
  try_catch
    match sessionStorage !! getOidcStorageKey env with
    | Some oidcStorage =>
        if truthy_str oidcStorage
        then user ← fromStorageString oidcStorage; Return (Some user)
        else Return None
    | None => Return None
    end
    None.

(** The request interceptor, as a function of [config.headers]. *)
Definition requestInterceptor (env : Env) (sessionStorage : gmap string string)
    (headers : gmap string string) : completion (gmap string string) :=
  user ← getUser env sessionStorage;
  match user with
  | Some u =>
      if truthy_str (access_token u)
      then Return (<["Authorization" := "Bearer " +:+ access_token u]> headers)
      else Return headers
  | None => Return headers
  end.

End WithOidcClient.

End CustomInstance.

(** ** web/src/lib/business.ts: choosing a business *)

Module BusinessSelection.
Import Auth Business.

(** [setBusinessId]: the session storage after the call. *)
Definition setBusinessId (businessId : string)
    (sessionStorage : gmap string string) : gmap string string :=
  if negb (truthy_str businessId) then sessionStorage
  else <[BUSINESS_STORAGE_KEY := businessId]> sessionStorage.

End BusinessSelection.

(** ** Fixtures: a signed-in administrator *)

Module Keycloak.
Import Auth.

(** A token whose payload is a realm-access object naming the roles admin and
    staff, and the text that payload decodes to. *)
Definition adminToken : string :=
  "eyJhbGciOiJub25lIn0.eyJyZWFsbV9hY2Nlc3MiOnsicm9sZXMiOlsiYWRtaW4iLCJzdGFmZiJdfX0.c2ln".

Definition adminPayloadText : string :=
  Eval vm_compute in
    match Browser.atob
            (ProtectedRoute.base64urlToPadded
               "eyJyZWFsbV9hY2Nlc3MiOnsicm9sZXMiOlsiYWRtaW4iLCJzdGFmZiJdfX0") with
    | Return text => text
    | Throw _ => ""
    end.

(** A token whose [realm_access.roles] is the single string superadmin
    instead of an array. *)
Definition superadminToken : string :=
  "eyJhbGciOiJub25lIn0.eyJyZWFsbV9hY2Nlc3MiOnsicm9sZXMiOiJzdXBlcmFkbWluIn19.c2ln".

Definition superadminPayloadText : string :=
  Eval vm_compute in
    match Browser.atob
            (ProtectedRoute.base64urlToPadded
               "eyJyZWFsbV9hY2Nlc3MiOnsicm9sZXMiOiJzdXBlcmFkbWluIn19") with
    | Return text => text
    | Throw _ => ""
    end.

(** [JSON.parse] that also reads the two payloads above. *)
Definition JSON_parse (text : string) : completion JsVal :=
  if String.eqb text adminPayloadText
  then Return (JObj [("realm_access",
                      JObj [("roles", JArr [JStr "admin"; JStr "staff"])])])
  else if String.eqb text superadminPayloadText
  then Return (JObj [("realm_access", JObj [("roles", JStr "superadmin")])])
  else Browser.JSON_parse text.

Definition admin : User :=
  {| state := None; profile := None; access_token := adminToken |}.

Definition adminSignedIn : ProtectedRoute.AuthState :=
  {| ProtectedRoute.isLoading := false;
     ProtectedRoute.error := None;
     ProtectedRoute.isAuthenticated := true;
     ProtectedRoute.user := Some admin |}.

Definition signedOut : ProtectedRoute.AuthState :=
  {| ProtectedRoute.isLoading := false;
     ProtectedRoute.error := None;
     ProtectedRoute.isAuthenticated := false;
     ProtectedRoute.user := None |}.

Definition superadmin : User :=
  {| state := None; profile := None; access_token := superadminToken |}.

Definition superadminSignedIn : ProtectedRoute.AuthState :=
  {| ProtectedRoute.isLoading := false;
     ProtectedRoute.error := None;
     ProtectedRoute.isAuthenticated := true;
     ProtectedRoute.user := Some superadmin |}.

Definition callsPage : SigninRedirect.Location :=
  {| SigninRedirect.pathname := "/call-logs";
     SigninRedirect.search := "?outcome=resolved";
     SigninRedirect.hash := "#latest" |}.

End Keycloak.

(** ** web/src/pages/Reservations.tsx: what was typed into the dialog *)

Module ReservationForm.
Import Reservations.

(** The text an event puts into each of the four inputs. *)
Definition typedName (e : FormEvent) : option string :=
  match e with CustomerNameChange value => Some value | _ => None end.

Definition typedPartySize (e : FormEvent) : option string :=
  match e with PartySizeChange value => Some value | _ => None end.

Definition typedDate (e : FormEvent) : option string :=
  match e with DateChange value => Some value | _ => None end.

Definition typedTime (e : FormEvent) : option string :=
  match e with TimeChange value => Some value | _ => None end.


End ReservationForm.

(** ** web/src/pages/CallLogs.tsx: durations and caller ids *)

Module CallLogDisplay.

(** [s.padStart(2, '0')] *)
Definition padStart2 (s : string) : string :=
  match String.length s with
  | O => "00"
  | 1%nat => "0" +:+ s
  | _ => s
  end.

(** [formatDuration] on a whole number of seconds; [None] is [null] or
    [undefined]. [pretty] is the decimal text [toString()] gives for an
    integer. The text for a missing duration is the literal of the source
    file, as the bytes of its UTF-8 encoding. *)
Definition formatDuration (seconds : option Z) : string :=
  match seconds with
  | None => "â€”"
  | Some sec =>
      if sec =? 0 then "â€”"
      else
        let mins := sec `div` 60 in
        let secs := Z.rem sec 60 in
        pretty mins +:+ ":" +:+ padStart2 (pretty secs)
  end.

(** [s.slice(0, n)] and [s.slice(-n)] *)
Definition sliceFirst (n : nat) (s : string) : string := String.substring 0 n s.

Definition sliceLast (n : nat) (s : string) : string :=
  String.substring (String.length s - n) n s.

(** [maskCallerId] *)
Definition maskCallerId (hash : option string) : string :=
  match hash with
  | None => "Unknown"
  | Some h =>
      if truthy_str h then sliceFirst 4 h +:+ "..." +:+ sliceLast 4 h
      else "Unknown"
  end.

End CallLogDisplay.

(** ** web/src/pages/Settings.tsx: editing the operating hours *)

Module SettingsForm.

(** An entry of the form state as the handlers can leave it: an object whose
    [open], [close] and [closed] may each be missing. (Editing a day that has
    no entry spreads [undefined] and stores an object with one property.) *)
Record Entry : Type := {
  open : option string;
  close : option string;
  closed : option bool
}.

(** [{...undefined}] *)
Definition noEntry : Entry := {| open := None; close := None; closed := None |}.

(** An entry with all three properties, as the load loop stores them. *)
Definition complete (d : Settings.DayForm) : Entry :=
  {| open := Some (Settings.open d);
     close := Some (Settings.close d);
     closed := Some (Settings.closed d) |}.

(** [setOperatingHours(hours)] at the end of the load effect. *)
Definition loadHours (operating_hours : option (gmap string Settings.ApiDayHours))
  : gmap string Entry :=
  complete <$> Settings.parseOperatingHours operating_hours.

Inductive HoursField : Type := OpenField | CloseField.

(** [handleHoursChange(day, field, value)]:
    [{...prev, [day]: {...prev[day], [field]: value}}] *)
Definition handleHoursChange (prev : gmap string Entry) (day : string)
    (field : HoursField) (value : string) : gmap string Entry :=
  let old := default noEntry (prev !! day) in
  <[day := match field with
           | OpenField =>
               {| open := Some value; close := close old; closed := closed old |}
           | CloseField =>
               {| open := open old; close := Some value; closed := closed old |}
           end]> prev.

(** [handleClosedToggle(day)]:
    [{...prev, [day]: {...prev[day], closed: !prev[day]?.closed}}] *)
Definition handleClosedToggle (prev : gmap string Entry) (day : string)
  : gmap string Entry :=
  let old := default noEntry (prev !! day) in
  <[day := {| open := open old; close := close old;
              closed := Some (negb (default false (closed old))) |}]> prev.

(** The save loop of [handleSave] on such entries. A missing [open] or
    [close] is a property that JSON leaves out. *)
Definition hoursForApi (operatingHours : gmap string Entry)
  : gmap string Settings.ApiDayHours :=
  foldl (fun acc day =>
           match operatingHours !! day with
           | Some dayHours =>
               if default false (closed dayHours)
               then <[day := Settings.ApiText "closed"]> acc
               else <[day := Settings.ApiOpenClose (open dayHours)
                                                   (close dayHours)]> acc
           | None => acc
           end)
        ∅ Settings.DAYS.

(** What the form shows for a day: [operatingHours[day]?.closed ?? false],
    [operatingHours[day]?.open ?? ''], [operatingHours[day]?.close ?? '']. *)
Definition shownClosed (operatingHours : gmap string Entry) (day : string) : bool :=
  default false (operatingHours !! day ≫= closed).

Definition shownOpen (operatingHours : gmap string Entry) (day : string) : string :=
  default "" (operatingHours !! day ≫= open).

Definition shownClose (operatingHours : gmap string Entry) (day : string) : string :=
  default "" (operatingHours !! day ≫= close).

(** The user's edits of the operating hours. *)
Inductive Edit : Type :=
| HoursChange (day : string) (field : HoursField) (value : string)
| ClosedToggle (day : string).

Definition applyEdit (operatingHours : gmap string Entry) (e : Edit)
  : gmap string Entry :=
  match e with
  | HoursChange day field value => handleHoursChange operatingHours day field value
  | ClosedToggle day => handleClosedToggle operatingHours day
  end.

(** Saving the form and loading what was saved. *)
Definition saveThenLoad (operatingHours : gmap string Entry) : gmap string Entry :=
  loadHours (Some (hoursForApi operatingHours)).

End SettingsForm.

(** ** web/src/lib/utils.ts *)

Module Utils.

(** What [getLocalDateString] reads from its [Date]: [getFullYear()],
    [getMonth()] (0 to 11) and [getDate()] (1 to 31). *)
Record LocalDate : Type := {
  fullYear : Z;
  month0 : Z;
  dayOfMonth : Z
}.

(** [getLocalDateString] *)
Definition getLocalDateString (date : LocalDate) : string :=
  let year := fullYear date in
  let month := CallLogDisplay.padStart2 (pretty (month0 date + 1)) in
  let day := CallLogDisplay.padStart2 (pretty (dayOfMonth date)) in
  pretty year +:+ "-" +:+ month +:+ "-" +:+ day.

(** Calendar fields of a date with a four-digit year. *)
Definition fourDigitYear (date : LocalDate) : Prop :=
  1000 <= fullYear date <= 9999 /\
  0 <= month0 date <= 11 /\
  1 <= dayOfMonth date <= 31.

(** The first date is the same day as the second or an earlier one. *)
Definition notAfter (d1 d2 : LocalDate) : Prop :=
  fullYear d1 < fullYear d2 \/
  (fullYear d1 = fullYear d2 /\
   (month0 d1 < month0 d2 \/
    (month0 d1 = month0 d2 /\ dayOfMonth d1 <= dayOfMonth d2))).

End Utils.

(** ** web/src/pages/Dashboard.tsx: reservation figures *)

Module Dashboard.

Inductive ReservationStatus : Type := confirmed | cancelled | completed | no_show.

#[global] Instance ReservationStatus_eq_dec : EqDecision ReservationStatus.
Proof. solve_decision. Defined.

(** The fields of a reservation the page reads. *)
Record ReservationResponse : Type := {
  id : string;
  customer_name : option string;
  party_size : Z;
  reservation_date : string;
  reservation_time : string;
  status : ReservationStatus
}.

(** [a >= b] on strings: code unit by code unit. *)
Definition str_ge (a b : string) : bool := String.leb b a.

(** [reservations?.filter((r) => r.reservation_date === today) || []] *)
Definition todayReservations (reservations : option (list ReservationResponse))
    (today : string) : list ReservationResponse :=
  List.filter (fun r => String.eqb (reservation_date r) today)
              (default [] reservations).

(** [reservations?.filter((r) => r.reservation_date >= today &&
    r.status === 'confirmed').slice(0, 5) || []] *)
Definition upcomingReservations (reservations : option (list ReservationResponse))
    (today : string) : list ReservationResponse :=
  take 5 (List.filter
            (fun r => str_ge (reservation_date r) today
                      && bool_decide (status r = confirmed))
            (default [] reservations)).

Definition confirmedToday (reservations : option (list ReservationResponse))
    (today : string) : nat :=
  length (List.filter (fun r => bool_decide (status r = confirmed))
                      (todayReservations reservations today)).

(** [.filter(confirmed).reduce((sum, r) => sum + r.party_size, 0)] *)
Definition totalGuests (reservations : option (list ReservationResponse))
    (today : string) : Z :=
  fold_left (fun sum r => sum + party_size r)
            (List.filter (fun r => bool_decide (status r = confirmed))
                         (todayReservations reservations today))
            0.

End Dashboard.

(** ** web/src/pages/KnowledgeTest.tsx and web/src/pages/FAQEditor.tsx *)

Module Knowledge.

(** The keys of [categoryColors] and [categoryLabels]. *)
Inductive KnowledgeCategory : Type := menu_item | faq | policy | announcement.

#[global] Instance KnowledgeCategory_eq_dec : EqDecision KnowledgeCategory.
Proof. solve_decision. Defined.

(** The fields of a knowledge item the two pages read. *)
Record KnowledgeItem : Type := {
  title : string;
  category : KnowledgeCategory
}.

(** [allItems?.filter(i => i.category === c).length || 0] *)
Definition countOf (allItems : option (list KnowledgeItem))
    (c : KnowledgeCategory) : nat :=
  length (List.filter (fun i => bool_decide (category i = c)) (default [] allItems)).

(** The [stats] object of the Knowledge Test page. *)
Record Stats : Type := {
  total : nat;
  menuItems : nat;
  faqs : nat;
  policies : nat;
  announcements : nat
}.

Definition stats (allItems : option (list KnowledgeItem)) : Stats :=
  {| total := length (default [] allItems);
     menuItems := countOf allItems menu_item;
     faqs := countOf allItems faq;
     policies := countOf allItems policy;
     announcements := countOf allItems announcement |}.

(** [selectedCategory] of the FAQ editor: 'all' or a category. *)
Inductive Selection : Type := all | only (c : KnowledgeCategory).

(** The [items] of the FAQ editor:
    [(allItems || []).filter(item => selectedCategory === 'all' ?
       item.category !== 'menu_item' : true)] *)
Definition items (allItems : option (list KnowledgeItem))
    (selectedCategory : Selection) : list KnowledgeItem :=
  List.filter (fun item =>
                 match selectedCategory with
                 | all => negb (bool_decide (category item = menu_item))
                 | only _ => true
                 end)
              (default [] allItems).

(** [items.filter(i => i.category === c)]: the groups of the FAQ editor. *)
Definition group (shown : list KnowledgeItem) (c : KnowledgeCategory)
  : list KnowledgeItem :=
  List.filter (fun i => bool_decide (category i = c)) shown.

End Knowledge.

(** ** web/src/components/layout/Layout.tsx and web/src/App.tsx *)

Module Navigation.

Record NavItem : Type := { name : string; href : string }.

Definition mainNavigation : list NavItem :=
  [ {| name := "Dashboard"; href := "/" |};
    {| name := "Reservations"; href := "/reservations" |};
    {| name := "Call Logs"; href := "/call-logs" |} ].

Definition knowledgeNavigation : list NavItem :=
  [ {| name := "Menu Editor"; href := "/menu-editor" |};
    {| name := "FAQ Editor"; href := "/faq-editor" |};
    {| name := "Knowledge Test"; href := "/knowledge-test" |} ].

Definition toolsNavigation : list NavItem :=
  [ {| name := "Voice Test"; href := "/voice-test" |};
    {| name := "Settings"; href := "/settings" |} ].

Definition allNavigation : list NavItem :=
  mainNavigation ++ knowledgeNavigation ++ toolsNavigation.

(** The page heading:
    [[...].find((n) => n.href === location.pathname)?.name || 'Dashboard'] *)
Definition headerTitle (pathname : string) : string :=
  str_or (name <$> List.find (fun n => String.eqb (href n) pathname) allNavigation)
         "Dashboard".

(** [isActive={location.pathname === item.href}] *)
Definition isActive (pathname : string) (item : NavItem) : bool :=
  String.eqb pathname (href item).

(** The paths of the routes [App] puts behind [ProtectedRoute]. *)
Definition protectedPaths : list string :=
  ["/"; "/reservations"; "/call-logs"; "/menu-editor"; "/faq-editor";
   "/knowledge-test"; "/voice-test"; "/settings"].

(** The role list [App] hands to [ProtectedRoute]. *)
Definition requiredRoles : list string := ["admin"].

End Navigation.

(** ** Properties *)

Module AuthProps.
Import Auth.

(** What the guard of the callback establishes: the text handed to
    [window.location.replace] starts with '/' and does not start with '//',
    whatever sign-in state comes back; a [returnTo] that fails this test is
    replaced by '/'. *)
Lemma onSigninCallback_slash_prefix (user : option User) :
  startsWith (onSigninCallback user) "/" = true /\
  startsWith (onSigninCallback user) "//" = false /\
  (forall target, (user ≫= state) ≫= returnTo = Some target ->
     startsWith target "/" = false \/ startsWith target "//" = true ->
     onSigninCallback user = "/").
Proof.
  unfold onSigninCallback. repeat split.
  - destruct (startsWith (str_or _ "/") "/") eqn:H1; simpl; [|done].
    destruct (startsWith (str_or _ "/") "//") eqn:H2; simpl; [done|].
    by rewrite H1.
  - destruct (startsWith (str_or _ "/") "/") eqn:H1; simpl; [|done].
    destruct (startsWith (str_or _ "/") "//") eqn:H2; simpl; [done|].
    by rewrite H2.
  - intros target -> Hbad. unfold str_or.
    destruct (truthy_str target) eqn:Ht.
    + destruct Hbad as [-> | ->]; [done|]. by rewrite orb_true_r.
    + done.
Qed.

(** A path is kept as it is, also when its second character is a
    backslash. *)
Example onSigninCallback_keeps_path :
  onSigninCallback (Some {| state := Some {| returnTo := Some "/calls?x=1#top" |};
                            profile := None; access_token := "" |})
  = "/calls?x=1#top" /\
  onSigninCallback (Some {| state := Some {| returnTo := Some "/\evil.example" |};
                            profile := None; access_token := "" |})
  = "/\evil.example".
Proof. split; reflexivity. Qed.

Example onSigninCallback_replaces_absolute_url :
  onSigninCallback (Some Browser.storedUser) = "/".
Proof.
  apply (onSigninCallback_slash_prefix (Some Browser.storedUser))
    with (target := "https://evil.example/").
  - reflexivity.
  - left. reflexivity.
Qed.

(** The sign-in state that comes back with the given [returnTo]. *)
Local Abbreviation back target :=
  (Some {| state := Some {| returnTo := Some target |};
           profile := None; access_token := "" |}).


(** The same holds of every [returnTo] that starts with a slash and a
    backslash, and of one that hides the second slash behind a tab. *)
Lemma onSigninCallback_keeps_backslash (rest : string) :
  onSigninCallback (back ("/\" +:+ rest)) = "/\" +:+ rest /\
  Browser.namesAuthority ("/\" +:+ rest) = true.
Proof. split; reflexivity. Qed.

Example onSigninCallback_keeps_tab :
  let target := String "/" (String (ascii_of_nat 9) "/evil.example") in
  onSigninCallback (back target) = target /\
  Browser.namesAuthority (onSigninCallback (back target)) = true.
Proof. split; reflexivity. Qed.

End AuthProps.

Module BusinessProps.
Import Auth Business.

Lemma nonempty_string_truthy v s : nonempty_string v = Some s -> truthy_str s = true.
Proof.
  destruct v; simpl; try discriminate.
  destruct (truthy_str s0) eqn:E; [|discriminate].
  by intros [= <-].
Qed.

Lemma omap_nonempty_truthy (ids : list JsVal) (s : string) :
  s ∈ omap nonempty_string ids -> truthy_str s = true.
Proof.
  intros Hin. apply list_elem_of_omap in Hin as (v & _ & Hv).
  by eapply nonempty_string_truthy.
Qed.

Lemma truthy_str_nonempty s : truthy_str s = true -> s <> "".
Proof. by destruct s. Qed.

Lemma envBusinessId_nonempty env id : envBusinessId env = Return id -> id <> "".
Proof.
  unfold envBusinessId.
  destruct (VITE_BUSINESS_ID env) as [b|]; [destruct (truthy_str b) eqn:E|];
    destruct (PROD env); intros [= <-]; try done.
  all: by apply truthy_str_nonempty.
Qed.

Section WithOidcClient.

Variable fromStorageString : string -> completion User.

Local Abbreviation getBusinessId := (getBusinessId fromStorageString).
Local Abbreviation claimEntries := (claimEntries fromStorageString).
Local Abbreviation getBusinessIdFromAuthClaims :=
  (getBusinessIdFromAuthClaims fromStorageString).

(** The claim lookup never throws, and what it returns is decided by the
    claim entries and the stored selection. *)
Lemma getBusinessIdFromAuthClaims_entries env st :
  getBusinessIdFromAuthClaims env st =
  Return match claimEntries env st with
         | [] => None
         | first :: _ =>
             match st !! BUSINESS_STORAGE_KEY with
             | Some selected =>
                 if bool_decide (selected ∈ claimEntries env st)
                 then Some selected else Some first
             | None => Some first
             end
         end.
Proof.
  unfold getBusinessIdFromAuthClaims, authClaimsBody, Business.claimEntries.
  destruct (st !! getOidcStorageKey env) as [oidc|]; [|done].
  destruct (truthy_str oidc); simpl; [|done].
  destruct (fromStorageString oidc) as [u|e]; simpl; [|done].
  destruct (default ∅ (profile u) !! "business_ids") as [[| | | | |ids|]|]; try done.
  destruct ids as [|i ids']; [done|].
  change (length (i :: ids') =? 0)%nat with false. cbv iota.
  destruct (omap nonempty_string (i :: ids')) as [|first rest] eqn:Hal; [done|].
  destruct (st !! BUSINESS_STORAGE_KEY) as [sel|]; [|done].
  destruct (bool_decide (sel ∈ first :: rest)) eqn:Hin.
  - apply bool_decide_eq_true in Hin.
    rewrite <- Hal in Hin. apply omap_nonempty_truthy in Hin. by rewrite Hin.
  - by rewrite andb_false_r.
Qed.

(** C9: [getBusinessId] never returns the empty string; a stored selection is
    returned exactly when it is one of the claim's entries, otherwise the
    first entry is; without entries the environment value is used, and when
    that is unset too a production build throws and a development build
    returns "default". *)
Theorem getBusinessId_tenant_scoped env st :
  (forall id, getBusinessId env st = Return id -> id <> "") /\
  (forall first rest, claimEntries env st = first :: rest ->
     getBusinessId env st =
     Return match st !! BUSINESS_STORAGE_KEY with
            | Some selected =>
                if bool_decide (selected ∈ first :: rest) then selected else first
            | None => first
            end) /\
  (claimEntries env st = [] ->
     forall b, VITE_BUSINESS_ID env = Some b -> b <> "" ->
     getBusinessId env st = Return b) /\
  (claimEntries env st = [] ->
     VITE_BUSINESS_ID env = None \/ VITE_BUSINESS_ID env = Some "" ->
     if PROD env
     then exists err, getBusinessId env st = Throw err
     else getBusinessId env st = Return "default").
Proof.
  unfold Business.getBusinessId.
  rewrite getBusinessIdFromAuthClaims_entries. simpl.
  repeat split.
  - intros id.
    destruct (claimEntries env st) as [|first rest] eqn:Hce.
    { apply envBusinessId_nonempty. }
    assert (Hfirst : truthy_str first = true).
    { unfold Business.claimEntries in Hce.
      repeat case_match; try discriminate.
      eapply omap_nonempty_truthy. rewrite Hce. by left. }
    destruct (st !! BUSINESS_STORAGE_KEY) as [sel|].
    + case_bool_decide as Hin.
      * assert (Hsel : truthy_str sel = true).
        { unfold Business.claimEntries in Hce.
          repeat case_match; try discriminate.
          eapply omap_nonempty_truthy. by rewrite Hce. }
        rewrite Hsel. intros [= <-]. by apply truthy_str_nonempty.
      * rewrite Hfirst. intros [= <-]. by apply truthy_str_nonempty.
    + rewrite Hfirst. intros [= <-]. by apply truthy_str_nonempty.
  - intros first rest Hce. rewrite Hce.
    assert (Hall : forall s, s ∈ first :: rest -> truthy_str s = true).
    { intros s Hs. unfold Business.claimEntries in Hce.
      repeat case_match; try discriminate.
      eapply omap_nonempty_truthy. by rewrite Hce. }
    destruct (st !! BUSINESS_STORAGE_KEY) as [sel|].
    + case_bool_decide as Hin.
      * by rewrite (Hall sel Hin).
      * rewrite (Hall first); [done | by left].
    + rewrite (Hall first); [done | by left].
  - intros Hce b Hb Hne. rewrite Hce. unfold envBusinessId. rewrite Hb.
    by destruct b.
  - intros Hce Hunset. rewrite Hce. unfold envBusinessId.
    destruct Hunset as [-> | ->]; simpl; destruct (PROD env); eauto.
Qed.

End WithOidcClient.

Lemma getBusinessId_tenant_scoped_witness :
  getBusinessId Browser.fromStorageString Browser.devEnv Browser.sessionStorage
  = Return "biz-b".
Proof.
  apply (getBusinessId_tenant_scoped Browser.fromStorageString Browser.devEnv
           Browser.sessionStorage) with (first := "biz-a") (rest := ["biz-b"]).
  vm_compute. reflexivity.
Defined.

End BusinessProps.

Module ProtectedRouteProps.
Import Auth ProtectedRoute.

Example split_three : split "." "aa.bb.cc" = ["aa"; "bb"; "cc"].
Proof. reflexivity. Qed.

Example split_empty : split "." "" = [""].
Proof. reflexivity. Qed.

Example split_trailing_dot : split "." "aa." = ["aa"; ""].
Proof. reflexivity. Qed.

Example base64url_padded : base64urlToPadded "ab-_c" = "ab+/c===".
Proof. reflexivity. Qed.

Example percent_encode_bytes :
  percentEncode (String "A" (String (ascii_of_N 10) "z")) = "%41%0a%7a".
Proof. reflexivity. Qed.

Lemma split_nonempty sep s : split sep s <> [].
Proof.
  destruct s as [|c rest]; simpl; [done|].
  destruct (Ascii.eqb c sep); [done|]. by destruct (split sep rest).
Qed.

Section WithBrowser.

Variable atob : string -> completion string.
Variable decodeURIComponent : string -> completion string.
Variable JSON_parse : string -> completion JsVal.

Local Abbreviation decodeJwtBody := (decodeJwtBody atob decodeURIComponent JSON_parse).
Local Abbreviation decodeJwtPayload :=
  (decodeJwtPayload atob decodeURIComponent JSON_parse).
Local Abbreviation getRolesFromAccessToken :=
  (getRolesFromAccessToken atob decodeURIComponent JSON_parse).
Local Abbreviation ProtectedRoute :=
  (ProtectedRoute atob decodeURIComponent JSON_parse).
Local Abbreviation wellFormedJwt :=
  (wellFormedJwt atob decodeURIComponent JSON_parse).

Lemma decodeJwtPayload_returns token : exists v, decodeJwtPayload token = Return v.
Proof.
  unfold ProtectedRoute.decodeJwtPayload, try_catch.
  destruct (decodeJwtBody token); eauto.
Qed.

Lemma decodeJwtBody_Return token v :
  decodeJwtBody token = Return v -> v <> JNull -> wellFormedJwt token.
Proof.
  unfold ProtectedRoute.decodeJwtBody, ProtectedRoute.wellFormedJwt.
  destruct (split "." token) as [|h [|part [|sg [|]]]]; try (intros [= <-]; done).
  destruct (atob _) as [bin|] eqn:Ha; simpl; [|done].
  destruct (decodeURIComponent _) as [decoded|] eqn:Hd; simpl; [|done].
  intros Hj _. by exists h, part, sg, bin, decoded, v.
Qed.

Lemma decodeJwtPayload_malformed token :
  ~ wellFormedJwt token -> decodeJwtPayload token = Return JNull.
Proof.
  intros Hbad. unfold ProtectedRoute.decodeJwtPayload, try_catch.
  destruct (decodeJwtBody token) as [v|] eqn:Hb; [|done].
  destruct v; try done; exfalso; apply Hbad;
    by eapply decodeJwtBody_Return.
Qed.

Lemma getRoles_malformed token :
  ~ wellFormedJwt token -> getRolesFromAccessToken (Some token) = Return (JArr []).
Proof.
  intros Hbad. unfold ProtectedRoute.getRolesFromAccessToken.
  destruct (truthy_str token); [|done]. simpl.
  by rewrite (decodeJwtPayload_malformed _ Hbad).
Qed.

Lemma someRole_no_roles required : someRole required (JArr []) = Return false.
Proof. induction required as [|r rs IH]; [done|]. simpl. apply IH. Qed.

(** C10: [decodeJwtPayload] returns on every string and never throws, with
    [null] for every string that is not a three-part token with a decodable
    JSON payload; [getRolesFromAccessToken] gives the empty list for an
    undefined or such a malformed token, and a route guarded by a non-empty
    role list then sends the user to the unauthorized page. *)
Theorem decodeJwtPayload_total :
  (forall token, exists v, decodeJwtPayload token = Return v) /\
  (forall token, ~ wellFormedJwt token -> decodeJwtPayload token = Return JNull) /\
  getRolesFromAccessToken None = Return (JArr []) /\
  (forall token, ~ wellFormedJwt token ->
     getRolesFromAccessToken (Some token) = Return (JArr [])) /\
  (forall role roles auth,
     isLoading auth = false -> error auth = None -> isAuthenticated auth = true ->
     (forall u, user auth = Some u -> ~ wellFormedJwt (access_token u)) ->
     ProtectedRoute (Some (role :: roles)) auth = Return (Navigate "/unauthorized")).
Proof.
  split; [apply decodeJwtPayload_returns|].
  split; [apply decodeJwtPayload_malformed|].
  split; [done|].
  split; [apply getRoles_malformed|].
  intros role roles auth Hl He Ha Hu.
  unfold ProtectedRoute.ProtectedRoute. rewrite Hl, He, Ha. cbn [negb].
  assert (Hroles : getRolesFromAccessToken (access_token <$> user auth)
                   = Return (JArr [])).
  { destruct (user auth) as [u|]; [|done]. apply getRoles_malformed. by apply Hu. }
  rewrite Hroles. simpl. by rewrite someRole_no_roles.
Qed.

End WithBrowser.

Example decodeJwtPayload_null_payload :
  decodeJwtPayload Browser.atob Browser.decodeURIComponent Browser.JSON_parse
    "eyJhbGciOiJub25lIn0.bnVsbA.c2ln" = Return JNull.
Proof. vm_compute. reflexivity. Qed.

Example decodeJwtPayload_number_payload :
  decodeJwtPayload Browser.atob Browser.decodeURIComponent Browser.JSON_parse
    "eyJhbGciOiJub25lIn0.NDI.c2ln" = Return (JNum 42).
Proof. vm_compute. reflexivity. Qed.

Example decodeJwtPayload_bad_base64 :
  decodeJwtPayload Browser.atob Browser.decodeURIComponent Browser.JSON_parse
    "header.pay!load.sig" = Return JNull.
Proof. vm_compute. reflexivity. Qed.

Lemma two_parts_not_wellFormed :
  ~ wellFormedJwt Browser.atob Browser.decodeURIComponent Browser.JSON_parse
      "only-two.parts".
Proof.
  intros (h & part & sg & bin & decoded & v & Hsplit & _).
  vm_compute in Hsplit. discriminate.
Qed.

Lemma decodeJwtPayload_total_witness :
  ProtectedRoute Browser.atob Browser.decodeURIComponent Browser.JSON_parse
    (Some ["admin"; "owner"]) Browser.signedIn
  = Return (Navigate "/unauthorized").
Proof.
  apply (decodeJwtPayload_total Browser.atob Browser.decodeURIComponent
           Browser.JSON_parse).
  - reflexivity.
  - reflexivity.
  - reflexivity.
  - intros u [= <-]. exact two_parts_not_wellFormed.
Defined.

End ProtectedRouteProps.

Module ReservationsProps.
Import Reservations.

Example parseInt_plain : parseInt "12" = Some 12.
Proof. reflexivity. Qed.

Example parseInt_trailing : parseInt "  42abc" = Some 42.
Proof. reflexivity. Qed.

Example parseInt_hex : parseInt "0x1F" = Some 31.
Proof. reflexivity. Qed.

Example parseInt_decimal_point : parseInt "2.5" = Some 2.
Proof. reflexivity. Qed.

Example parseInt_empty : parseInt "" = None.
Proof. reflexivity. Qed.

Example parseInt_letters : parseInt "abc" = None.
Proof. reflexivity. Qed.

Example parseInt_negative : parseInt "-5" = Some (-5).
Proof. reflexivity. Qed.




(** C3: typing "-5" into the party-size input and pressing Create
    Reservation submits a party size of -5. *)
Theorem addReservation_negative_party_size businessId today :
  rc_party_size (addReservation businessId today [PartySizeChange "-5"]) = -5.
Proof. reflexivity. Qed.

(** So "every submitted party size is at least one" does not hold of the
    form. *)
Lemma party_size_not_always_positive :
  ~ (forall businessId today typed,
       1 <= rc_party_size (addReservation businessId today typed)).
Proof.
  intros H. specialize (H "" "" [PartySizeChange "-5"]).
  vm_compute in H. by apply H.
Qed.

End ReservationsProps.

Module CallLogsProps.
Import CallLogs.

(** C4: the filter offers 'all' followed by exactly the five session
    outcomes, and the colour map and the icon map are each defined on exactly
    those five keys; a call log with one of the five outcomes is rendered
    with the colour and the icon its own table entries give. *)
Theorem outcome_tables_cover_session_outcomes :
  outcomeOptions = "all" :: sessionOutcomes /\
  dom outcomeColors = list_to_set sessionOutcomes /\
  dom outcomeIcons = list_to_set sessionOutcomes /\
  Forall (fun o => is_Some (outcomeColor (Some o)) /\
                   outcomeColor (Some o) = outcomeColors !! o /\
                   outcomeIcons !! o = Some (outcomeIcon (Some o)))
         sessionOutcomes.
Proof.
  split; [done|].
  split; [unfold outcomeColors; by rewrite dom_list_to_map_L|].
  split; [unfold outcomeIcons; by rewrite dom_list_to_map_L|].
  repeat constructor; by eexists.
Qed.

End CallLogsProps.

Module SettingsProps.
Import Settings.

Lemma parse_loop_lookup (api : option (gmap string ApiDayHours))
    (days : list string) (day : string) :
  day ∈ days ->
  foldl (fun hours d => <[d := parseDay (api ≫= (fun h => h !! d))]> hours)
        (∅ : gmap string DayForm) days !! day
  = Some (parseDay (api ≫= (fun h => h !! day))).
Proof.
  induction days as [|d days IH] using rev_ind; [by intros ?%elem_of_nil|].
  rewrite foldl_app. simpl. intros Hin.
  destruct (decide (d = day)) as [->|Hne].
  - by rewrite lookup_insert_eq.
  - rewrite lookup_insert_ne by done. apply IH.
    apply elem_of_app in Hin as [?|?%list_elem_of_singleton]; [done | congruence].
Qed.

Lemma save_loop_lookup (form : gmap string DayForm) (days : list string)
    (day : string) :
  day ∈ days ->
  foldl (fun acc d =>
           match form !! d with
           | Some dayHours =>
               if closed dayHours then <[d := ApiText "closed"]> acc
               else <[d := ApiOpenClose (Some (open dayHours))
                                        (Some (close dayHours))]> acc
           | None => acc
           end)
        (∅ : gmap string ApiDayHours) days !! day
  = (fun e => if closed e then ApiText "closed"
              else ApiOpenClose (Some (open e)) (Some (close e))) <$> form !! day.
Proof.
  induction days as [|d days IH] using rev_ind; [by intros ?%elem_of_nil|].
  rewrite foldl_app. simpl. intros Hin.
  destruct (decide (d = day)) as [->|Hne].
  - destruct (form !! day) as [e|] eqn:He; simpl.
    + destruct (closed e); by rewrite lookup_insert_eq.
    + clear IH Hin. induction days as [|d' days IH'] using rev_ind; [done|].
      rewrite foldl_app. simpl.
      destruct (form !! d') as [e'|] eqn:He'; [|done].
      assert (d' <> day) by congruence.
      destruct (closed e'); by rewrite lookup_insert_ne.
  - assert (Hin' : day ∈ days).
    { apply elem_of_app in Hin as [?|?%list_elem_of_singleton]; [done | congruence]. }
    destruct (form !! d) as [e|]; [|by apply IH].
    destruct (closed e); rewrite lookup_insert_ne by done; by apply IH.
Qed.

Lemma saveThenLoad_lookup (form : gmap string DayForm) (day : string) :
  day ∈ DAYS ->
  saveThenLoad form !! day =
  Some match form !! day with
       | Some e =>
           if closed e then {| open := ""; close := ""; closed := true |}
           else {| open := open e; close := close e; closed := false |}
       | None => {| open := "11:00"; close := "22:30"; closed := false |}
       end.
Proof.
  intros Hin. unfold saveThenLoad, parseOperatingHours.
  rewrite parse_loop_lookup by done. simpl.
  unfold hoursForApi. rewrite save_loop_lookup by done.
  destruct (form !! day) as [e|]; [|done]. simpl.
  by destruct (closed e).
Qed.

(** C5, as stated, fails on the form state the page starts from: no weekday
    has an entry, nothing is serialized, and loading fills in 11:00-22:30
    where the form showed empty times. *)
Lemma roundTrip_fails_on_initial_form : ~ roundTripRestores ∅.
Proof.
  intros H. apply Forall_cons in H as [[_ H] _].
  specialize (H eq_refl) as [H _]. vm_compute in H. discriminate.
Qed.

(** A weekday without an entry is not serialized and comes back open from
    11:00 to 22:30. *)
Lemma saveThenLoad_absent_day (form : gmap string DayForm) (day : string) :
  day ∈ DAYS -> form !! day = None ->
  saveThenLoad form !! day
    = Some {| open := "11:00"; close := "22:30"; closed := false |}.
Proof. intros Hin Hnone. by rewrite saveThenLoad_lookup, Hnone. Qed.

(** C5, amended: for every weekday that has an entry in the form state,
    saving and loading again restores the closed flag, and for an entry not
    marked closed the open and close times as well. *)
Theorem saveThenLoad_restores_entries (form : gmap string DayForm)
    (day : string) (e : DayForm) :
  day ∈ DAYS -> form !! day = Some e ->
  exists e', saveThenLoad form !! day = Some e' /\
             closed e' = closed e /\
             (closed e = false -> e' = e).
Proof.
  intros Hin He. rewrite saveThenLoad_lookup, He by done.
  eexists. split; [done|].
  destruct e as [o c []]; simpl; by split.
Qed.

Lemma saveThenLoad_restores_entries_witness :
  exists e',
    saveThenLoad {[ "monday" := {| open := "09:00"; close := "17:00";
                                   closed := false |} ]} !! "monday" = Some e' /\
    closed e' = false /\
    (false = false ->
     e' = {| open := "09:00"; close := "17:00"; closed := false |}).
Proof.
  apply (saveThenLoad_restores_entries
           {[ "monday" := {| open := "09:00"; close := "17:00";
                             closed := false |} ]} "monday"
           {| open := "09:00"; close := "17:00"; closed := false |}).
  - unfold DAYS. by left.
  - reflexivity.
Defined.

End SettingsProps.

Module AvailabilityProps.
Import Availability.

Example tuesday_is_tuesday : weekdayOf Scenario.tuesday = Tuesday.
Proof. reflexivity. Qed.

Example scenario_available :
  code (check Scenario.sundayMorning Scenario.rules []
          Scenario.tuesday (20 * 60) 4).1 = Available.
Proof. reflexivity. Qed.

Example scenario_closed :
  code (check Scenario.sundayMorning Scenario.rules []
          Scenario.monday (20 * 60) 4).1 = RejectedClosed.
Proof. reflexivity. Qed.

Example scenario_capacity :
  let r := (check Scenario.sundayMorning Scenario.rules Scenario.busyEvening
              Scenario.tuesday (20 * 60) 4).1 in
  code r = RejectedCapacity /\ suggestions r = [18 * 60; 21 * 60 + 30].
Proof. split; reflexivity. Qed.

(** C1: the check runs its five rules in the order closed day, operating
    hours, advance bounds, party size, capacity; the outcome is the rejection
    of the first rule that fails, no later rule is run, and when all pass the
    outcome is available; the world is handed back as it was. *)
Theorem check_first_failing_rule w rules existing date time partySize :
  let pass := passes w rules existing date time partySize in
  let r := (check w rules existing date time partySize).1 in
  (code r = RejectedClosed <-> pass ClosedCheck = false) /\
  (code r = RejectedOutsideHours <->
     pass ClosedCheck = true /\ pass HoursCheck = false) /\
  (code r = RejectedTooSoon <->
     pass ClosedCheck = true /\ pass HoursCheck = true /\
     pass AdvanceCheck = false) /\
  (code r = RejectedPartyTooLarge <->
     pass ClosedCheck = true /\ pass HoursCheck = true /\
     pass AdvanceCheck = true /\ pass PartySizeCheck = false) /\
  (code r = RejectedCapacity <->
     pass ClosedCheck = true /\ pass HoursCheck = true /\
     pass AdvanceCheck = true /\ pass PartySizeCheck = true /\
     pass CapacityCheck = false) /\
  (code r = Available <->
     pass ClosedCheck = true /\ pass HoursCheck = true /\
     pass AdvanceCheck = true /\ pass PartySizeCheck = true /\
     pass CapacityCheck = true) /\
  evaluated r =
    match code r with
    | RejectedClosed => [ClosedCheck]
    | RejectedOutsideHours => [ClosedCheck; HoursCheck]
    | RejectedTooSoon => [ClosedCheck; HoursCheck; AdvanceCheck]
    | RejectedPartyTooLarge =>
        [ClosedCheck; HoursCheck; AdvanceCheck; PartySizeCheck]
    | RejectedCapacity | Available => checkOrder
    end /\
  (check w rules existing date time partySize).2 = w.
Proof.
  intros pass r. subst r. unfold check, checkOrder.
  fold pass. clearbody pass. simpl.
  destruct (pass ClosedCheck); [|simpl; intuition congruence].
  destruct (pass HoursCheck); [|simpl; intuition congruence].
  destruct (pass AdvanceCheck); [|simpl; intuition congruence].
  destruct (pass PartySizeCheck); [|simpl; intuition congruence].
  destruct (pass CapacityCheck); simpl; intuition congruence.
Qed.

(** C1 at work: on the closed Monday of the scenario the outcome is
    rejected-closed. *)
Lemma check_first_failing_rule_witness :
  code (check Scenario.sundayMorning Scenario.rules []
          Scenario.monday (20 * 60) 4).1 = RejectedClosed.
Proof.
  apply (check_first_failing_rule Scenario.sundayMorning Scenario.rules []
           Scenario.monday (20 * 60) 4).
  reflexivity.
Defined.

(** Every suggested time is a slot of the day at a multiple of 30 minutes
    from the request that passes the capacity check, and there are at most
    two of them. *)
Lemma alternatives_fit rules existing time partySize t :
  t ∈ alternatives rules existing time partySize ->
  seatsTaken rules existing t + partySize <= totalSeats rules /\
  0 <= t < 1440 /\ (exists k, t = time + 30 * k /\ k <> 0).
Proof.
  assert (Hfind : forall step, step <> 0 ->
            nearestSlot rules existing time partySize step = Some t ->
            seatsTaken rules existing t + partySize <= totalSeats rules /\
            0 <= t < 1440 /\ exists k, t = time + step * k /\ k <> 0).
  { intros step Hstep Hf. unfold nearestSlot in Hf.
    apply find_some in Hf as [Hin Hok].
    apply andb_prop in Hok as [Hrange Hcap].
    apply andb_prop in Hrange as [Hlo Hhi].
    apply Z.leb_le in Hlo, Hcap. apply Z.ltb_lt in Hhi.
    apply in_map_iff in Hin as (k & <- & Hk). apply in_seq in Hk.
    repeat split; try lia. exists (Z.of_nat k). split; [done | lia]. }
  assert (Hopt : forall o : option Z, t ∈ option_list o -> o = Some t).
  { intros [x|]; simpl; [by intros ->%list_elem_of_singleton | by intros ?%elem_of_nil]. }
  unfold alternatives. intros Hin.
  apply elem_of_app in Hin as [Hin|Hin]; apply Hopt in Hin.
  - apply Hfind in Hin as (Hcap & Hday & k & -> & Hk); [|done].
    split; [done|]. split; [done|]. exists (- k). split; lia.
  - apply Hfind in Hin as (Hcap & Hday & k & -> & Hk); [|done].
    split; [done|]. split; [done|]. by exists k.
Qed.

Lemma alternatives_at_most_two rules existing time partySize :
  (length (alternatives rules existing time partySize) <= 2)%nat.
Proof.
  unfold alternatives. rewrite length_app.
  destruct (nearestSlot _ _ _ _ (-30)), (nearestSlot _ _ _ _ 30); simpl; lia.
Qed.

End AvailabilityProps.

Module SlotStoreProps.
Import SlotStore.

Lemma applyField_value {A} `{EqDecision A} (asserted existing : option A) :
  (applyField asserted existing).1 = from_option Some existing asserted.
Proof.
  destruct asserted as [v|], existing as [old|]; simpl; try done.
  by destruct (decide (v = old)) as [->|].
Qed.

Lemma get_applyExtraction (f : Field) (fields slots : SlotSet) :
  get f (applyExtraction fields slots).1
  = from_option Some (get f slots) (get f fields).
Proof. destruct f; simpl; apply applyField_value. Qed.

Lemma applyAll_snoc (extractions : list SlotSet) (fields slots : SlotSet) :
  applyAll (extractions ++ [fields]) slots
  = (applyExtraction fields (applyAll extractions slots)).1.
Proof. unfold applyAll. by rewrite foldl_app. Qed.

(** C2: after any sequence of extraction results, a field holds the last
    value asserted for it (its earlier values play no part), or its initial
    value when the sequence never asserted it; and a single extraction that
    does not mention a field leaves that field as it was. *)
Theorem applyAll_last_asserted (f : Field) (extractions : list SlotSet)
    (slots : SlotSet) :
  get f (applyAll extractions slots)
    = from_option Some (get f slots) (lastAsserted f extractions) /\
  (forall fields, get f fields = None ->
     get f (applyExtraction fields slots).1 = get f slots /\
     changeOf f (applyExtraction fields slots).2 = Untouched).
Proof.
  split.
  - unfold lastAsserted.
    induction extractions as [|fields extractions IH] using rev_ind; [done|].
    rewrite applyAll_snoc, get_applyExtraction, omap_app. simpl.
    destruct (get f fields) as [v|]; simpl.
    + by rewrite last_snoc.
    + by rewrite app_nil_r.
  - intros fields Hnone. rewrite get_applyExtraction, Hnone. split; [done|].
    destruct f; simpl in *; by rewrite Hnone.
Qed.

(** "4 log", then "actually 6 log": the party size ends as 6 and the second
    extraction marks it corrected. *)
Example party_size_corrected :
  let empty := {| partySize := None; date := None; time := None;
                  customerName := None; specialRequests := None |} in
  let four := {| partySize := Some 4%positive; date := None; time := None;
                 customerName := None; specialRequests := None |} in
  let six := {| partySize := Some 6%positive; date := None; time := None;
                customerName := None; specialRequests := None |} in
  partySize (applyAll [four; six] empty) = Some 6%positive /\
  partySizeChange (applyExtraction six (applyAll [four] empty)).2 = Corrected.
Proof. split; reflexivity. Qed.

Lemma applyAll_last_asserted_witness :
  let empty := {| partySize := None; date := None; time := None;
                  customerName := None; specialRequests := None |} in
  let six := {| partySize := Some 6%positive; date := None; time := None;
                customerName := None; specialRequests := None |} in
  get CustomerName (applyExtraction six empty).1 = get CustomerName empty /\
  changeOf CustomerName (applyExtraction six empty).2 = Untouched.
Proof.
  intros empty six.
  apply (applyAll_last_asserted CustomerName [] empty).
  reflexivity.
Defined.

End SlotStoreProps.

Module LanguageDetectorProps.
Import SlotStore LanguageDetector.

(** C7: a filler-only utterance leaves the slot set as it was, and the
    detector answers with the prior label and the prior confidence. *)
Theorem filler_only_changes_nothing (stoplist : list string)
    (classify : string -> Label * Q) (extract : string -> SlotSet)
    (s : Session) (u : string) :
  fillerOnly stoplist u = true ->
  detect stoplist classify u (language s) (languageConfidence s)
    = (language s, languageConfidence s) /\
  slots (processUtterance stoplist classify extract s u) = slots s /\
  language (processUtterance stoplist classify extract s u) = language s /\
  languageConfidence (processUtterance stoplist classify extract s u)
    = languageConfidence s.
Proof.
  intros Hfiller. unfold processUtterance, detect. by rewrite Hfiller.
Qed.

(** Any run of filler-only utterances leaves the session as it was. *)
Lemma filler_run_changes_nothing (stoplist : list string)
    (classify : string -> Label * Q) (extract : string -> SlotSet)
    (us : list string) (s : Session) :
  Forall (fun u => fillerOnly stoplist u = true) us ->
  foldl (processUtterance stoplist classify extract) s us = s.
Proof.
  induction 1 as [|u us Hu _ IH]; [done|]. simpl.
  assert (processUtterance stoplist classify extract s u = s) as ->; [|done].
  unfold processUtterance, detect. rewrite Hu. by destruct s.
Qed.

Lemma filler_only_changes_nothing_witness :
  let stoplist := ["hmm"; "okay"; "achha"; "uh"; "haan"; "hello"] in
  let classify := fun _ : string => (English, 9 # 10) in
  let extract := fun _ : string =>
    {| partySize := Some 2%positive; date := None; time := None;
       customerName := None; specialRequests := None |} in
  let s := {| slots := {| partySize := Some 4%positive; date := None;
                          time := None; customerName := None;
                          specialRequests := None |};
              language := Some Hindi; languageConfidence := 9 # 10 |} in
  fillerOnly stoplist "hmm  haan" = true /\
  slots (processUtterance stoplist classify extract s "hmm  haan") = slots s.
Proof.
  intros stoplist classify extract s.
  split; [reflexivity|].
  apply (filler_only_changes_nothing stoplist classify extract s "hmm  haan").
  reflexivity.
Defined.

End LanguageDetectorProps.

(** ** Further properties of the web client *)

Module StringFacts.

Lemma append_cons (c : ascii) (s t : string) : String c s +:+ t = String c (s +:+ t).
Proof. reflexivity. Qed.

Lemma prefix_one (a c : ascii) (s : string) :
  String.prefix (String a EmptyString) (String c s) = Ascii.eqb a c.
Proof.
  cbn -[ascii_dec]. destruct (ascii_dec a c) as [->|Hne].
  - rewrite Ascii.eqb_refl. by destruct s.
  - apply Ascii.eqb_neq in Hne. by rewrite Hne.
Qed.

Lemma startsWith_slash_app (p rest : string) :
  startsWith p "/" = true -> startsWith (p +:+ rest) "/" = true.
Proof.
  destruct p as [|c p]; [done|]. rewrite append_cons.
  unfold startsWith. by rewrite !prefix_one.
Qed.

Lemma append_nil_l (s : string) : "" +:+ s = s.
Proof. reflexivity. Qed.

Lemma append_nil_r (s : string) : s +:+ "" = s.
Proof. induction s as [|c s IH]; [done|]. by rewrite append_cons, IH. Qed.

Lemma length_append (s t : string) :
  String.length (s +:+ t) = (String.length s + String.length t)%nat.
Proof. induction s as [|c s IH]; [done|]. rewrite append_cons. simpl. by rewrite IH. Qed.

(** Two concatenations with right parts of the same length agree part by
    part. *)
Lemma append_inj_right (s1 s2 t1 t2 : string) :
  s1 +:+ t1 = s2 +:+ t2 -> String.length t1 = String.length t2 ->
  s1 = s2 /\ t1 = t2.
Proof.
  revert s2. induction s1 as [|c s1 IH]; intros [|d s2] Heq Hlen.
  - done.
  - exfalso. apply (f_equal String.length) in Heq.
    rewrite !length_append in Heq. simpl in Heq. lia.
  - exfalso. apply (f_equal String.length) in Heq.
    rewrite !length_append in Heq. simpl in Heq. lia.
  - rewrite !append_cons in Heq. injection Heq as -> Heq.
    destruct (IH s2 Heq Hlen) as [-> ->]. done.
Qed.

Lemma substring_prefix (a rest : string) :
  String.substring 0 (String.length a) (a +:+ rest) = a.
Proof. induction a as [|c a IH]; [by destruct rest|]. rewrite append_cons. simpl. by rewrite IH. Qed.

Lemma substring_skip (a rest : string) (n : nat) :
  String.substring (String.length a) n (a +:+ rest) = String.substring 0 n rest.
Proof. induction a as [|c a IH]; [done|]. rewrite append_cons. simpl. exact IH. Qed.

Lemma substring_all (b : string) : String.substring 0 (String.length b) b = b.
Proof. induction b as [|c b IH]; [done|]. simpl. by rewrite IH. Qed.

Lemma length_substring_le (n m : nat) (s : string) :
  (String.length (String.substring n m s) <= m)%nat.
Proof.
  revert n m. induction s as [|c s IH]; intros [|n] [|m]; simpl; try lia.
  - specialize (IH 0%nat m). lia.
  - apply (IH n 0%nat).
  - apply (IH n (S m)).
Qed.

End StringFacts.

Module SigninRedirectProps.
Import Auth ProtectedRoute SigninRedirect StringFacts.

Lemma startsWith_slash_truthy (s : string) :
  startsWith s "/" = true -> truthy_str s = true.
Proof. by destruct s. Qed.

(** X1: a user who opens a page while signed out is sent to sign in with the
    page's path, query and fragment as [returnTo], and the sign-in callback
    then navigates to exactly that address, provided the path starts with one
    slash and the address not with two. *)
Theorem deep_link_preserved (auth : AuthState) (location : Location)
    (token : string) :
  isLoading auth = false -> isAuthenticated auth = false -> error auth = None ->
  startsWith (pathname location) "/" = true ->
  startsWith (pathname location +:+ search location +:+ hash location) "//" = false ->
  exists st,
    redirectEffect auth location false = (true, Some st) /\
    onSigninCallback (Some (returningUser st token))
      = pathname location +:+ search location +:+ hash location.
Proof.
  intros Hl Ha He Hslash Hdouble.
  unfold redirectEffect. rewrite Hl, Ha, He. simpl.
  eexists. split; [reflexivity|].
  unfold onSigninCallback. simpl.
  pose proof (startsWith_slash_app _ (search location +:+ hash location) Hslash) as H1.
  rewrite (startsWith_slash_truthy _ H1). by rewrite H1, Hdouble.
Qed.

Lemma deep_link_preserved_witness :
  exists st,
    redirectEffect Keycloak.signedOut Keycloak.callsPage false = (true, Some st) /\
    onSigninCallback (Some (returningUser st ""))
      = "/call-logs?outcome=resolved#latest".
Proof.
  apply (deep_link_preserved Keycloak.signedOut Keycloak.callsPage "");
    reflexivity.
Defined.

Lemma redirectsStarted_after_redirect (runs : list (AuthState * Location)) :
  redirectsStarted runs true = [].
Proof.
  induction runs as [|[auth location] more IH]; [done|].
  simpl. unfold redirectEffect. rewrite andb_false_r. simpl. exact IH.
Qed.

(** X2: however often the effect runs while the component stays mounted,
    and whatever the auth states and locations of those runs, at most one
    sign-in redirect is started, and none once the ref is set. *)
Theorem signinRedirect_at_most_once (runs : list (AuthState * Location))
    (redirecting : bool) :
  (length (redirectsStarted runs redirecting) <= 1)%nat /\
  (redirecting = true -> redirectsStarted runs redirecting = []).
Proof.
  split; [|intros ->; apply redirectsStarted_after_redirect].
  destruct redirecting; [by rewrite redirectsStarted_after_redirect; simpl; lia|].
  induction runs as [|[auth location] more IH]; [simpl; lia|].
  simpl. destruct (redirectEffect auth location false) as [r started] eqn:Heff.
  unfold redirectEffect in Heff.
  destruct (negb (isLoading auth) && negb (isAuthenticated auth)
            && negb (bool_decide (is_Some (error auth))) && negb false);
    simplify_eq; simpl.
  - rewrite redirectsStarted_after_redirect. simpl. lia.
  - exact IH.
Qed.

Lemma signinRedirect_at_most_once_witness :
  redirectsStarted [(Keycloak.signedOut, Keycloak.callsPage);
                    (Keycloak.signedOut, Keycloak.callsPage)] true = [].
Proof.
  apply (signinRedirect_at_most_once
           [(Keycloak.signedOut, Keycloak.callsPage);
            (Keycloak.signedOut, Keycloak.callsPage)] true).
  reflexivity.
Defined.

End SigninRedirectProps.

Module RouteGuardProps.
Import Auth ProtectedRoute.

Section WithBrowser.

Variable atob : string -> completion string.
Variable decodeURIComponent : string -> completion string.
Variable JSON_parse : string -> completion JsVal.

Local Abbreviation decodeJwtPayload :=
  (decodeJwtPayload atob decodeURIComponent JSON_parse).
Local Abbreviation getRolesFromAccessToken :=
  (getRolesFromAccessToken atob decodeURIComponent JSON_parse).
Local Abbreviation ProtectedRoute :=
  (ProtectedRoute atob decodeURIComponent JSON_parse).

(** X3: the routed page ([Outlet]) and the unauthorized redirect are only
    ever rendered for a user who is authenticated, with loading finished and
    no auth error; the only redirect target is /unauthorized. *)
Theorem guard_decides_only_when_authenticated (roles : option (list string))
    (auth : AuthState) (view : Rendered) :
  ProtectedRoute roles auth = Return view ->
  view = Outlet \/ (exists to, view = Navigate to) ->
  isLoading auth = false /\ error auth = None /\ isAuthenticated auth = true /\
  (forall to, view = Navigate to -> to = "/unauthorized").
Proof.
  unfold ProtectedRoute.ProtectedRoute.
  destruct (isLoading auth); [intros [= <-] [|[? ?]]; done|].
  destruct (error auth); [intros [= <-] [|[? ?]]; done|].
  destruct (isAuthenticated auth); simpl; [|intros [= <-] [|[? ?]]; done].
  intros Hview _. repeat split; [].
  intros to ->.
  destruct roles as [[|role roles]|]; try done.
  unfold mbind, completion_bind, bind in Hview.
  destruct (getRolesFromAccessToken _) as [userRoles|]; [|done].
  destruct (someRole (role :: roles) userRoles) as [[]|]; by simplify_eq.
Qed.

Lemma someRole_array (required : list string) (items : list JsVal) :
  exists hit, someRole required (JArr items) = Return hit /\
              (hit = true <-> exists r, r ∈ required /\ JStr r ∈ items).
Proof.
  induction required as [|role more IH]; simpl.
  - exists false. split; [done|]. split; [done|].
    by intros (r & ?%elem_of_nil & _).
  - destruct (existsb _ items) eqn:Hhit; simpl.
    + exists true. split; [done|]. split; [|done]. intros _.
      apply existsb_exists in Hhit as (v & Hin & Hv).
      destruct v; try done. apply String.eqb_eq in Hv as ->.
      exists role. split; [by left | by apply list_elem_of_In].
    + destruct IH as (hit & Hrun & Hiff). exists hit. split; [done|].
      rewrite Hiff. split.
      * intros (r & Hr & Hin). exists r. split; [by right | done].
      * intros (r & Hr & Hin). exists r. split; [|done].
        apply elem_of_cons in Hr as [->|Hr]; [|done]. exfalso.
        assert (existsb (fun v => match v with
                                  | JStr s => String.eqb s role
                                  | _ => false
                                  end) items = true) as Hyes; [|congruence].
        apply existsb_exists. exists (JStr role).
        split; [by apply list_elem_of_In | apply String.eqb_refl].
Qed.

(** X4: for an authenticated user whose token payload is an object with a
    [realm_access.roles] array, a route guarded by a non-empty role list
    renders the page when one of the required roles is an element of that
    array, and redirects to /unauthorized when none is. *)
Theorem role_gate_on_roles_array (role : string) (roles : list string)
    (auth : AuthState) (u : User)
    (props realmAccess : list (string * JsVal)) (items : list JsVal) :
  isLoading auth = false -> error auth = None -> isAuthenticated auth = true ->
  user auth = Some u -> truthy_str (access_token u) = true ->
  decodeJwtPayload (access_token u) = Return (JObj props) ->
  assoc "realm_access" props = JObj realmAccess ->
  assoc "roles" realmAccess = JArr items ->
  ((exists r, r ∈ role :: roles /\ JStr r ∈ items) ->
   ProtectedRoute (Some (role :: roles)) auth = Return Outlet) /\
  (~ (exists r, r ∈ role :: roles /\ JStr r ∈ items) ->
   ProtectedRoute (Some (role :: roles)) auth = Return (Navigate "/unauthorized")).
Proof.
  intros Hl He Ha Hu Htok Hdec Hra Hroles.
  unfold ProtectedRoute.ProtectedRoute. rewrite Hl, He, Ha, Hu.
  cbn [negb fmap option_fmap option_map].
  unfold ProtectedRoute.getRolesFromAccessToken. rewrite Htok. cbn [negb].
  rewrite Hdec. cbn -[someRole]. rewrite Hra. cbn -[someRole].
  rewrite Hroles. cbn -[someRole].
  destruct (someRole_array (role :: roles) items) as (hit & Hrun & Hiff).
  rewrite Hrun. simpl.
  split; intros Hex.
  - apply Hiff in Hex. by rewrite Hex.
  - destruct hit; [|done]. exfalso. apply Hex. by apply Hiff.
Qed.

Lemma someRole_string (required : list string) (s : string) :
  exists hit, someRole required (JStr s) = Return hit /\
              (hit = true <-> exists r, r ∈ required /\ String.index 0 r s <> None).
Proof.
  induction required as [|role more IH]; simpl.
  - exists false. split; [done|]. split; [done|].
    by intros (r & ?%elem_of_nil & _).
  - destruct (String.index 0 role s) as [n|] eqn:Hidx; simpl.
    + exists true. split; [done|]. split; [|done]. intros _.
      exists role. split; [by left | by rewrite Hidx].
    + destruct IH as (hit & Hrun & Hiff). exists hit. split; [done|].
      rewrite Hiff. split.
      * intros (r & Hr & Hin). exists r. split; [by right | done].
      * intros (r & Hr & Hin). exists r. split; [|done].
        apply elem_of_cons in Hr as [->|Hr]; [|done]. by rewrite Hidx in Hin.
Qed.

(** X23: what the role gate does when the token's [realm_access.roles] is not
    an array. A falsy value (missing, null, false, 0, empty string) counts as
    no roles: the user is sent to /unauthorized. A non-empty string is
    searched for the required roles as substrings ([String.index]): the page
    is rendered when one of them occurs in it, also inside a longer word.
    Any other value (true, a non-zero number, an object) makes rendering
    throw. *)
Theorem role_gate_on_other_roles (role : string) (roles : list string)
    (auth : AuthState) (u : User)
    (props realmAccess : list (string * JsVal)) (v : JsVal) :
  isLoading auth = false -> error auth = None -> isAuthenticated auth = true ->
  user auth = Some u -> truthy_str (access_token u) = true ->
  decodeJwtPayload (access_token u) = Return (JObj props) ->
  assoc "realm_access" props = JObj realmAccess ->
  assoc "roles" realmAccess = v ->
  (truthy v = false ->
   ProtectedRoute (Some (role :: roles)) auth = Return (Navigate "/unauthorized")) /\
  (forall s, v = JStr s -> s <> "" ->
     ((exists r, r ∈ role :: roles /\ String.index 0 r s <> None) ->
      ProtectedRoute (Some (role :: roles)) auth = Return Outlet) /\
     (~ (exists r, r ∈ role :: roles /\ String.index 0 r s <> None) ->
      ProtectedRoute (Some (role :: roles)) auth
      = Return (Navigate "/unauthorized"))) /\
  (truthy v = true -> (forall items, v <> JArr items) -> (forall s, v <> JStr s) ->
   exists err, ProtectedRoute (Some (role :: roles)) auth = Throw err).
Proof.
  intros Hl He Ha Hu Htok Hdec Hra Hroles.
  unfold ProtectedRoute.ProtectedRoute. rewrite Hl, He, Ha, Hu.
  cbn [negb fmap option_fmap option_map].
  unfold ProtectedRoute.getRolesFromAccessToken. rewrite Htok. cbn [negb].
  rewrite Hdec. cbn -[someRole]. rewrite Hra. cbn -[someRole].
  rewrite Hroles. clear Hroles Hra Hdec.
  split; [|split].
  - intros ->. cbn -[someRole].
    destruct (someRole_array (role :: roles) []) as (hit & Hrun & Hiff).
    rewrite Hrun. destruct hit; [|done].
    destruct (proj1 Hiff eq_refl) as (r & _ & Hin). by apply elem_of_nil in Hin.
  - intros s -> Hs.
    assert (truthy (JStr s) = true) as -> by (by destruct s).
    cbn -[someRole].
    destruct (someRole_string (role :: roles) s) as (hit & Hrun & Hiff).
    rewrite Hrun. simpl.
    split; intros Hex.
    + apply Hiff in Hex. by rewrite Hex.
    + destruct hit; [|done]. exfalso. apply Hex. by apply Hiff.
  - intros -> Harr Hstr. cbn -[someRole].
    destruct v as [| |b|n|s|items|ps]; simpl; try by eexists.
    + by destruct (Hstr s).
    + by destruct (Harr items).
Qed.

End WithBrowser.

Lemma role_gate_on_roles_array_witness :
  ProtectedRoute Browser.atob Browser.decodeURIComponent Keycloak.JSON_parse
    (Some ["admin"]) Keycloak.adminSignedIn
  = Return Outlet.
Proof.
  apply (role_gate_on_roles_array Browser.atob Browser.decodeURIComponent
           Keycloak.JSON_parse "admin" [] Keycloak.adminSignedIn Keycloak.admin
           [("realm_access", JObj [("roles", JArr [JStr "admin"; JStr "staff"])])]
           [("roles", JArr [JStr "admin"; JStr "staff"])]
           [JStr "admin"; JStr "staff"]);
    try reflexivity.
  exists "admin". split; by left.
Defined.

Lemma guard_decides_only_when_authenticated_witness :
  ProtectedRoute.isLoading Keycloak.adminSignedIn = false /\
  ProtectedRoute.error Keycloak.adminSignedIn = None /\
  ProtectedRoute.isAuthenticated Keycloak.adminSignedIn = true /\
  (forall to, Outlet = Navigate to -> to = "/unauthorized").
Proof.
  apply (guard_decides_only_when_authenticated Browser.atob
           Browser.decodeURIComponent Keycloak.JSON_parse
           (Some ["admin"]) Keycloak.adminSignedIn Outlet).
  - vm_compute. reflexivity.
  - by left.
Defined.

Lemma role_gate_on_other_roles_witness :
  ProtectedRoute Browser.atob Browser.decodeURIComponent Keycloak.JSON_parse
    (Some ["admin"]) Keycloak.superadminSignedIn
  = Return Outlet.
Proof.
  assert (Hgate := role_gate_on_other_roles Browser.atob
            Browser.decodeURIComponent Keycloak.JSON_parse "admin" []
            Keycloak.superadminSignedIn Keycloak.superadmin
            [("realm_access", JObj [("roles", JStr "superadmin")])]
            [("roles", JStr "superadmin")] (JStr "superadmin")
            eq_refl eq_refl eq_refl eq_refl eq_refl eq_refl eq_refl eq_refl).
  destruct Hgate as (_ & Hstring & _).
  apply (Hstring "superadmin"); [reflexivity | discriminate |].
  exists "admin". split; [by left | discriminate].
Defined.

End RouteGuardProps.

Module CustomInstanceProps.
Import Auth CustomInstance.

Section WithOidcClient.

Variable fromStorageString : string -> completion User.

Local Abbreviation getUser := (getUser fromStorageString).
Local Abbreviation requestInterceptor := (requestInterceptor fromStorageString).

(** X5: the request interceptor never throws, whatever the session storage
    holds, and never touches a header other than Authorization. It sets
    Authorization to "Bearer " followed by the stored user's access token when
    a user with a non-empty token can be read from storage, and returns the
    headers as they were when storage has no entry or the entry cannot be
    parsed. *)
Theorem requestInterceptor_headers (env : Env) (st headers : gmap string string) :
  (exists headers',
     requestInterceptor env st headers = Return headers' /\
     forall name, name <> "Authorization" -> headers' !! name = headers !! name) /\
  (forall stored u,
     st !! getOidcStorageKey env = Some stored -> truthy_str stored = true ->
     fromStorageString stored = Return u -> truthy_str (access_token u) = true ->
     requestInterceptor env st headers
     = Return (<["Authorization" := "Bearer " +:+ access_token u]> headers)) /\
  (st !! getOidcStorageKey env = None \/
   (exists stored err, st !! getOidcStorageKey env = Some stored /\
                       fromStorageString stored = Throw err) ->
   requestInterceptor env st headers = Return headers).
Proof.
  unfold CustomInstance.requestInterceptor, CustomInstance.getUser.
  repeat split.
  - destruct (st !! getOidcStorageKey env) as [stored|]; simpl; [|by eauto].
    destruct (truthy_str stored); simpl; [|by eauto].
    destruct (fromStorageString stored) as [u|]; simpl; [|by eauto].
    destruct (truthy_str (access_token u)); [|by eauto].
    eexists. split; [done|]. intros name Hne. by rewrite lookup_insert_ne.
  - intros stored u -> -> Hparse Htok. simpl. rewrite Hparse. simpl.
    by rewrite Htok.
  - intros [->|(stored & err & -> & Hparse)]; [done|]. simpl.
    destruct (truthy_str stored); [|done]. by rewrite Hparse.
Qed.

End WithOidcClient.

Lemma requestInterceptor_headers_witness :
  requestInterceptor Browser.fromStorageString Browser.devEnv
    Browser.sessionStorage {[ "Content-Type" := "application/json" ]}
  = Return (<["Authorization" := "Bearer only-two.parts"]>
              {[ "Content-Type" := "application/json" ]}).
Proof.
  apply (requestInterceptor_headers Browser.fromStorageString Browser.devEnv
           Browser.sessionStorage {[ "Content-Type" := "application/json" ]})
    with (stored := "stored-user") (u := Browser.storedUser);
    vm_compute; reflexivity.
Defined.

End CustomInstanceProps.

Module BusinessSelectionProps.
Import Auth Business BusinessSelection.

Lemma oidc_key_is_not_business_key (env : Env) :
  getOidcStorageKey env <> BUSINESS_STORAGE_KEY.
Proof. unfold getOidcStorageKey, BUSINESS_STORAGE_KEY. discriminate. Qed.

Section WithOidcClient.

Variable fromStorageString : string -> completion User.

Local Abbreviation getBusinessId := (getBusinessId fromStorageString).
Local Abbreviation claimEntries := (claimEntries fromStorageString).

Lemma claimEntries_setBusinessId (env : Env) (st : gmap string string) (id : string) :
  claimEntries env (setBusinessId id st) = claimEntries env st.
Proof.
  unfold Business.claimEntries, setBusinessId.
  destruct (truthy_str id); simpl; [|done].
  rewrite lookup_insert_ne; [done|].
  intros Heq. by apply (oidc_key_is_not_business_key env).
Qed.

(** X6: choosing a business and reading it back. An empty id is ignored.
    A chosen id that is one of the token's claim entries is what
    [getBusinessId] returns afterwards; a chosen id that is not among the
    (non-empty) claim entries is never returned, the first entry is. *)
Theorem setBusinessId_then_getBusinessId (env : Env) (st : gmap string string)
    (id : string) :
  setBusinessId "" st = st /\
  (id ∈ claimEntries env st ->
   getBusinessId env (setBusinessId id st) = Return id) /\
  (forall first rest, claimEntries env st = first :: rest ->
     id <> "" -> id ∉ first :: rest ->
     getBusinessId env (setBusinessId id st) = Return first).
Proof.
  split; [done|].
  assert (Hget : forall first rest, claimEntries env st = first :: rest ->
            truthy_str id = true ->
            getBusinessId env (setBusinessId id st)
            = Return (if bool_decide (id ∈ first :: rest) then id else first)).
  { intros first rest Hce Hid.
    unfold Business.getBusinessId.
    rewrite BusinessProps.getBusinessIdFromAuthClaims_entries.
    rewrite claimEntries_setBusinessId, Hce. simpl.
    unfold setBusinessId. rewrite Hid. simpl. rewrite lookup_insert_eq.
    assert (Hfirst : truthy_str first = true).
    { unfold Business.claimEntries in Hce. repeat case_match; try discriminate.
      eapply BusinessProps.omap_nonempty_truthy. rewrite Hce. by left. }
    case_bool_decide; by rewrite ?Hid, ?Hfirst. }
  split.
  - intros Hin.
    destruct (claimEntries env st) as [|first rest] eqn:Hce;
      [by apply elem_of_nil in Hin|].
    assert (Hid : truthy_str id = true).
    { unfold Business.claimEntries in Hce. repeat case_match; try discriminate.
      eapply BusinessProps.omap_nonempty_truthy. by rewrite Hce. }
    rewrite (Hget first rest eq_refl Hid). by rewrite bool_decide_eq_true_2.
  - intros first rest Hce Hne Hnotin.
    rewrite (Hget first rest Hce) by (by destruct id).
    by rewrite bool_decide_eq_false_2.
Qed.

End WithOidcClient.

Lemma setBusinessId_then_getBusinessId_witness :
  getBusinessId Browser.fromStorageString Browser.devEnv
    (setBusinessId "biz-a" Browser.sessionStorage) = Return "biz-a".
Proof.
  apply (setBusinessId_then_getBusinessId Browser.fromStorageString
           Browser.devEnv Browser.sessionStorage "biz-a").
  vm_compute. by left.
Defined.

End BusinessSelectionProps.

Module ReservationFormProps.
Import Reservations ReservationForm.

Lemma onChange_run_fields (today : string) (typed : list FormEvent) :
  let st := fold_left onChange typed (initialReservation today) in
  customer_name st = default "" (last (omap typedName typed)) /\
  party_size st
    = from_option (fun v => orOne (parseInt v)) 2 (last (omap typedPartySize typed)) /\
  reservation_date st = default today (last (omap typedDate typed)) /\
  reservation_time st = default "19:00" (last (omap typedTime typed)).
Proof.
  induction typed as [|e typed IH] using rev_ind; [done|].
  rewrite fold_left_app, !omap_app. simpl.
  destruct IH as (Hn & Hp & Hd & Ht).
  destruct e; simpl; rewrite ?last_snoc, ?app_nil_r; simpl; done.
Qed.

(** X7: whatever is typed into the Add Reservation dialog, in whatever
    order, each field of the form holds what was typed last into its own
    input (the party size after [parseInt(..) || 1]), or its initial value if
    nothing was typed there; typing into one input never changes another. *)
Theorem form_holds_last_typed (today : string) (typed : list FormEvent) :
  let st := fold_left onChange typed (initialReservation today) in
  customer_name st = default "" (last (omap typedName typed)) /\
  party_size st
    = from_option (fun v => orOne (parseInt v)) 2 (last (omap typedPartySize typed)) /\
  reservation_date st = default today (last (omap typedDate typed)) /\
  reservation_time st = default "19:00" (last (omap typedTime typed)).
Proof. apply onChange_run_fields. Qed.




End ReservationFormProps.

Module CallLogDisplayProps.
Import CallLogDisplay StringFacts.

Example formatDuration_examples :
  formatDuration (Some 75) = "1:15" /\ formatDuration (Some 5) = "0:05" /\
  formatDuration (Some 3600) = "60:00" /\ formatDuration (Some 0) = "â€”" /\
  formatDuration None = "â€”".
Proof. repeat split; reflexivity. Qed.

Example maskCallerId_examples :
  maskCallerId (Some "a1b2c3d4e5f60718") = "a1b2...0718" /\
  maskCallerId (Some "abc") = "abc...abc" /\
  maskCallerId (Some "") = "Unknown" /\ maskCallerId None = "Unknown".
Proof. repeat split; reflexivity. Qed.

(** The seconds part is always two decimal digits. *)
Lemma seconds_two_digits (r : Z) :
  0 <= r < 60 ->
  padStart2 (pretty r)
  = String (pretty_N_char (Z.to_N (r `div` 10)))
      (String (pretty_N_char (Z.to_N (r `mod` 10))) EmptyString).
Proof.
  intros Hr.
  assert (Hnat : forall n : nat, (n < 60)%nat ->
            padStart2 (pretty (Z.of_nat n))
            = String (pretty_N_char (Z.to_N (Z.of_nat n `div` 10)))
                (String (pretty_N_char (Z.to_N (Z.of_nat n `mod` 10))) EmptyString)).
  { intros n Hn.
    do 60 (destruct n as [|n]; [vm_compute; reflexivity|]). lia. }
  rewrite <- (Z2Nat.id r) by lia. apply Hnat. lia.
Qed.

(** X9: two different positive durations (whole seconds) are never shown as
    the same text. *)
Theorem formatDuration_injective (s1 s2 : Z) :
  0 < s1 -> 0 < s2 ->
  formatDuration (Some s1) = formatDuration (Some s2) -> s1 = s2.
Proof.
  intros H1 H2. unfold formatDuration.
  destruct (s1 =? 0) eqn:E1; [lia|]. destruct (s2 =? 0) eqn:E2; [lia|].
  rewrite !Z.rem_mod_nonneg by lia.
  rewrite !seconds_two_digits by (apply Z.mod_pos_bound; lia).
  intros Heq.
  apply append_inj_right in Heq as [Hm Hs]; [|done].
  apply (inj pretty) in Hm.
  injection Hs as Hd1 Hd0.
  assert (0 <= s1 `mod` 60 < 60) by (apply Z.mod_pos_bound; lia).
  assert (0 <= s2 `mod` 60 < 60) by (apply Z.mod_pos_bound; lia).
  apply pretty_N_char_inj in Hd1;
    [|apply N2Z.inj_lt; rewrite Z2N.id; [apply Z.div_lt_upper_bound|apply Z.div_pos]; lia..].
  apply pretty_N_char_inj in Hd0;
    [|apply N2Z.inj_lt; rewrite Z2N.id; [apply Z.mod_pos_bound|apply Z.mod_pos_bound]; lia..].
  apply Z2N.inj in Hd1; [|apply Z.div_pos; lia..].
  apply Z2N.inj in Hd0; [|apply Z.mod_pos_bound; lia..].
  rewrite (Z.div_mod s1 60), (Z.div_mod s2 60) by lia.
  rewrite (Z.div_mod (s1 `mod` 60) 10), (Z.div_mod (s2 `mod` 60) 10) by lia.
  congruence.
Qed.

Lemma formatDuration_injective_witness : 75 = 75.
Proof.
  apply (formatDuration_injective 75 75); [lia | lia | reflexivity].
Defined.

(** X10: a caller id hash of eight or more characters is shown as its first
    four and last four characters around three dots, so the characters in
    between are hidden; a missing or empty hash is shown as Unknown; and the
    text shown is never longer than eleven characters. *)
Theorem maskCallerId_hides_middle :
  (forall first middle last : string,
     String.length first = 4%nat -> String.length last = 4%nat ->
     maskCallerId (Some (first +:+ middle +:+ last)) = first +:+ "..." +:+ last) /\
  maskCallerId None = "Unknown" /\ maskCallerId (Some "") = "Unknown" /\
  (forall hash, (String.length (maskCallerId hash) <= 11)%nat).
Proof.
  repeat split.
  - intros a m b Ha Hb. unfold maskCallerId.
    assert (truthy_str (a +:+ m +:+ b) = true) as ->.
    { destruct a; [done|]. by rewrite append_cons. }
    unfold sliceFirst, sliceLast. f_equal.
    + rewrite <- Ha. apply substring_prefix.
    + f_equal. rewrite !length_append, Hb.
      replace (String.length a + (String.length m + 4) - 4)%nat
        with (String.length (a +:+ m)) by (rewrite length_append; lia).
      assert (a +:+ m +:+ b = (a +:+ m) +:+ b) as ->.
      { clear. induction a as [|c a IH]; [done|]. by rewrite !append_cons, IH. }
      rewrite substring_skip, <- Hb. apply substring_all.
  - intros [h|]; [|simpl; lia]. unfold maskCallerId.
    destruct (truthy_str h); [|simpl; lia].
    rewrite !length_append. unfold sliceFirst, sliceLast.
    pose proof (length_substring_le 0 4 h).
    pose proof (length_substring_le (String.length h - 4) 4 h).
    simpl. lia.
Qed.

Lemma maskCallerId_hides_middle_witness :
  maskCallerId (Some ("a1b2" +:+ "c3d4e5f6" +:+ "0718")) = "a1b2" +:+ "..." +:+ "0718".
Proof.
  apply maskCallerId_hides_middle; reflexivity.
Defined.

End CallLogDisplayProps.

Module SettingsFormProps.
Import SettingsForm.

Lemma parse_loop_lookup_other (api : option (gmap string Settings.ApiDayHours))
    (days : list string) (day : string) :
  day ∉ days ->
  foldl (fun hours d =>
           <[d := Settings.parseDay (api ≫= (fun h => h !! d))]> hours)
        (∅ : gmap string Settings.DayForm) days !! day = None.
Proof.
  induction days as [|d days IH] using rev_ind; [done|].
  rewrite foldl_app. simpl. intros Hnotin.
  rewrite not_elem_of_app, not_elem_of_cons in Hnotin.
  destruct Hnotin as [Hdays [Hne _]].
  rewrite lookup_insert_ne by done. by apply IH.
Qed.

Lemma parse_lookup (api : option (gmap string Settings.ApiDayHours)) (day : string) :
  Settings.parseOperatingHours api !! day
  = if decide (day ∈ Settings.DAYS)
    then Some (Settings.parseDay (api ≫= (fun h => h !! day))) else None.
Proof.
  unfold Settings.parseOperatingHours. case_decide.
  - by apply SettingsProps.parse_loop_lookup.
  - by apply parse_loop_lookup_other.
Qed.

Lemma form_save_loop_lookup (form : gmap string Entry) (days : list string)
    (day : string) :
  foldl (fun acc d =>
           match form !! d with
           | Some dayHours =>
               if default false (closed dayHours)
               then <[d := Settings.ApiText "closed"]> acc
               else <[d := Settings.ApiOpenClose (open dayHours)
                                                 (close dayHours)]> acc
           | None => acc
           end)
        (∅ : gmap string Settings.ApiDayHours) days !! day
  = if decide (day ∈ days)
    then (fun e => if default false (closed e) then Settings.ApiText "closed"
                   else Settings.ApiOpenClose (open e) (close e)) <$> form !! day
    else None.
Proof.
  induction days as [|d days IH] using rev_ind.
  { rewrite decide_False; [done | apply not_elem_of_nil]. }
  rewrite foldl_app. simpl.
  destruct (decide (d = day)) as [->|Hne].
  - rewrite decide_True by (apply elem_of_app; right; by left).
    destruct (form !! day) as [e|] eqn:He; simpl.
    + destruct (default false (closed e)); by rewrite lookup_insert_eq.
    + rewrite IH. by destruct (decide (day ∈ days)).
  - assert (Hiff : day ∈ days ++ [d] <-> day ∈ days).
    { rewrite elem_of_app, list_elem_of_singleton.
      split; [intros [?|?]; [done | congruence] | by left]. }
    rewrite (decide_ext _ _ _ _ Hiff).
    destruct (form !! d) as [e|]; [|by apply IH].
    destruct (default false (closed e)); rewrite lookup_insert_ne by done; by apply IH.
Qed.

Lemma form_saveThenLoad_lookup (form : gmap string Entry) (day : string) :
  day ∈ Settings.DAYS ->
  saveThenLoad form !! day =
  Some match form !! day with
       | Some e =>
           if default false (closed e)
           then {| open := Some ""; close := Some ""; closed := Some true |}
           else {| open := Some (default "" (open e));
                   close := Some (default "" (close e));
                   closed := Some false |}
       | None => {| open := Some "11:00"; close := Some "22:30";
                    closed := Some false |}
       end.
Proof.
  intros Hin. unfold saveThenLoad, loadHours.
  rewrite lookup_fmap, parse_lookup, decide_True by done. simpl.
  unfold hoursForApi. rewrite form_save_loop_lookup, decide_True by done.
  destruct (form !! day) as [e|]; [|done]. simpl.
  by destruct (default false (closed e)).
Qed.

Lemma loadHours_lookup (api : option (gmap string Settings.ApiDayHours))
    (day : string) :
  day ∈ Settings.DAYS ->
  exists d, loadHours api !! day = Some (complete d).
Proof.
  intros Hin. unfold loadHours.
  rewrite lookup_fmap, parse_lookup, decide_True by done. simpl. eauto.
Qed.

Lemma applyEdit_keeps_entries (form : gmap string Entry) (e : Edit) (day : string) :
  is_Some (form !! day) -> is_Some (applyEdit form e !! day).
Proof.
  intros Hsome. destruct e as [d field value|d]; simpl;
    unfold handleHoursChange, handleClosedToggle;
    (destruct (decide (d = day)) as [->|Hne];
     [rewrite lookup_insert_eq; eauto | by rewrite lookup_insert_ne]).
Qed.

Lemma edits_keep_entries (form : gmap string Entry) (edits : list Edit)
    (day : string) :
  is_Some (form !! day) -> is_Some (foldl applyEdit form edits !! day).
Proof.
  revert form. induction edits as [|e edits IH]; intros form Hsome; [done|].
  simpl. by apply IH, applyEdit_keeps_entries.
Qed.

Lemma round_trip_of_entry (form : gmap string Entry) (day : string) :
  day ∈ Settings.DAYS -> is_Some (form !! day) ->
  shownClosed (saveThenLoad form) day = shownClosed form day /\
  (shownClosed form day = false ->
   shownOpen (saveThenLoad form) day = shownOpen form day /\
   shownClose (saveThenLoad form) day = shownClose form day).
Proof.
  intros Hin [e He]. unfold shownClosed, shownOpen, shownClose.
  rewrite form_saveThenLoad_lookup, He by done. simpl.
  destruct (default false (closed e)) eqn:Hc; simpl; [done|].
  split; [done|]. intros _. by destruct (open e), (close e).
Qed.

(** On entries with all three properties the save loop is the one of the
    [Settings] module. *)
Lemma hoursForApi_complete (form : gmap string Settings.DayForm) :
  hoursForApi (complete <$> form) = Settings.hoursForApi form.
Proof.
  unfold hoursForApi, Settings.hoursForApi.
  induction Settings.DAYS as [|d days IH] using rev_ind; [done|].
  rewrite !foldl_app. simpl. rewrite IH, lookup_fmap.
  destruct (form !! d) as [e|]; simpl; [|done]. by destruct (Settings.closed e).
Qed.

(** X11: whatever the API returns for [operating_hours] (missing, partial, or
    with extra keys), loading puts exactly the seven weekdays into the form,
    each with all three properties; and whatever the form holds, saving sends
    no key that is not a weekday. *)
Theorem load_and_save_keep_to_weekdays
    (api : option (gmap string Settings.ApiDayHours)) (form : gmap string Entry) :
  dom (loadHours api) = list_to_set Settings.DAYS /\
  (forall day e, loadHours api !! day = Some e -> exists d, e = complete d) /\
  dom (hoursForApi form) ⊆ list_to_set Settings.DAYS.
Proof.
  split; [|split].
  - apply set_eq. intros day. rewrite elem_of_dom, elem_of_list_to_set.
    unfold loadHours. rewrite lookup_fmap, parse_lookup.
    destruct (decide (day ∈ Settings.DAYS)) as [Hin|Hnotin]; simpl.
    + split; [done | eauto].
    + split; [by intros [? ?] | done].
  - intros day e. unfold loadHours. rewrite lookup_fmap, parse_lookup.
    destruct (decide (day ∈ Settings.DAYS)); simpl; [|done]. intros [= <-]. eauto.
  - intros day. rewrite elem_of_dom, elem_of_list_to_set.
    unfold hoursForApi. rewrite form_save_loop_lookup.
    destruct (decide (day ∈ Settings.DAYS)); [done | by intros [? ?]].
Qed.

(** X12: loading the saved form gives back the same form when the form came
    from a load: load, save, load is the same as load. *)
Theorem load_save_load_stable (api : option (gmap string Settings.ApiDayHours)) :
  saveThenLoad (loadHours api) = loadHours api.
Proof.
  apply map_eq. intros day.
  destruct (decide (day ∈ Settings.DAYS)) as [Hin|Hnotin].
  - rewrite form_saveThenLoad_lookup by done.
    unfold loadHours. rewrite lookup_fmap, parse_lookup, decide_True by done.
    simpl. f_equal.
    destruct (Settings.parseDay _) as [o c []] eqn:Hparse; simpl; [|done].
    assert (o = "" /\ c = "") as [-> ->]; [|done].
    unfold Settings.parseDay in Hparse. repeat case_match; by simplify_eq.
  - unfold saveThenLoad, loadHours.
    by rewrite !lookup_fmap, !parse_lookup, !decide_False.
Qed.

(** X13: after a load and any sequence of edits of the operating hours
    (changing a time or toggling closed, on any day), saving and loading
    again restores for every weekday the closed flag the form shows, and for
    every weekday not shown closed the open and close times it shows. *)
Theorem edited_form_round_trips (api : option (gmap string Settings.ApiDayHours))
    (edits : list Edit) (day : string) :
  day ∈ Settings.DAYS ->
  let form := foldl applyEdit (loadHours api) edits in
  shownClosed (saveThenLoad form) day = shownClosed form day /\
  (shownClosed form day = false ->
   shownOpen (saveThenLoad form) day = shownOpen form day /\
   shownClose (saveThenLoad form) day = shownClose form day).
Proof.
  intros Hin form. apply round_trip_of_entry; [done|].
  apply edits_keep_entries.
  destruct (loadHours_lookup api day Hin) as [d ->]. eauto.
Qed.

Lemma load_and_save_keep_to_weekdays_witness :
  exists d, {| open := Some "11:00"; close := Some "22:30"; closed := Some false |}
            = complete d.
Proof.
  apply (load_and_save_keep_to_weekdays None ∅) with (day := "sunday").
  reflexivity.
Defined.

Lemma edited_form_round_trips_witness :
  let form := foldl applyEdit (loadHours None)
                [ClosedToggle "monday"; HoursChange "friday" CloseField "23:30"] in
  shownClosed (saveThenLoad form) "friday" = shownClosed form "friday" /\
  (shownClosed form "friday" = false ->
   shownOpen (saveThenLoad form) "friday" = shownOpen form "friday" /\
   shownClose (saveThenLoad form) "friday" = shownClose form "friday").
Proof.
  apply (edited_form_round_trips None
           [ClosedToggle "monday"; HoursChange "friday" CloseField "23:30"]
           "friday").
  unfold Settings.DAYS. set_solver.
Defined.

(** X14: toggling a day's closed box flips what the form shows as closed for
    that day and twice restores it; it never changes the closed flag of
    another day nor the times shown for any day. *)
Theorem handleClosedToggle_flips (form : gmap string Entry) (day other : string) :
  shownClosed (handleClosedToggle form day) day = negb (shownClosed form day) /\
  shownClosed (handleClosedToggle (handleClosedToggle form day) day) other
    = shownClosed form other /\
  (other <> day ->
   shownClosed (handleClosedToggle form day) other = shownClosed form other) /\
  shownOpen (handleClosedToggle form day) other = shownOpen form other /\
  shownClose (handleClosedToggle form day) other = shownClose form other.
Proof.
  unfold shownClosed, shownOpen, shownClose, handleClosedToggle.
  repeat split.
  - rewrite lookup_insert_eq. simpl. by destruct (form !! day) as [[? ? [|]]|].
  - destruct (decide (day = other)) as [->|Hne].
    + rewrite !lookup_insert_eq. simpl. rewrite negb_involutive.
      by destruct (form !! other) as [[? ? [|]]|].
    + by rewrite !lookup_insert_ne.
  - intros Hne. by rewrite lookup_insert_ne.
  - destruct (decide (day = other)) as [->|Hne].
    + rewrite lookup_insert_eq. simpl. by destruct (form !! other).
    + by rewrite lookup_insert_ne.
  - destruct (decide (day = other)) as [->|Hne].
    + rewrite lookup_insert_eq. simpl. by destruct (form !! other).
    + by rewrite lookup_insert_ne.
Qed.

Lemma handleClosedToggle_flips_witness :
  shownClosed (handleClosedToggle (loadHours None) "monday") "tuesday"
  = shownClosed (loadHours None) "tuesday".
Proof.
  apply (handleClosedToggle_flips (loadHours None) "monday" "tuesday").
  discriminate.
Defined.

(** X15: a day's times do not survive being closed across a save: marking a
    weekday closed, saving, loading and clearing the closed box again leaves
    the day open with empty open and close times, whatever they were. *)
Theorem closing_a_day_discards_its_hours (form : gmap string Entry) (day : string) :
  day ∈ Settings.DAYS -> shownClosed form day = false ->
  let reopened :=
    handleClosedToggle (saveThenLoad (handleClosedToggle form day)) day in
  shownClosed reopened day = false /\
  shownOpen reopened day = "" /\ shownClose reopened day = "".
Proof.
  intros Hin Hopen reopened. subst reopened.
  unfold shownClosed, shownOpen, shownClose in *.
  unfold handleClosedToggle at 1 3 5. rewrite !lookup_insert_eq.
  rewrite form_saveThenLoad_lookup by done.
  unfold handleClosedToggle. rewrite lookup_insert_eq.
  destruct (form !! day) as [[o c [[]|]]|]; simpl in *; done.
Qed.

Lemma closing_a_day_discards_its_hours_witness :
  let reopened :=
    handleClosedToggle
      (saveThenLoad (handleClosedToggle (loadHours None) "friday")) "friday" in
  shownClosed reopened "friday" = false /\
  shownOpen reopened "friday" = "" /\ shownClose reopened "friday" = "".
Proof.
  apply (closing_a_day_discards_its_hours (loadHours None) "friday").
  - unfold Settings.DAYS. set_solver.
  - reflexivity.
Defined.

End SettingsFormProps.

Module DateStringProps.
Import Utils StringFacts.

Ltac divlia := zify; Z.to_euclidean_division_equations; lia.

Lemma pretty_positive_digits (y : Z) :
  0 < y -> pretty y = pretty_N_go (Z.to_N y) "".
Proof.
  destruct y as [|p|p]; [lia | | lia]. intros _.
  unfold pretty, pretty_Z, pretty_positive, pretty, pretty_N.
  by destruct (decide (N.pos p = 0%N)).
Qed.

Lemma pretty_four_digits (y : Z) :
  1000 <= y <= 9999 ->
  pretty y
  = String (pretty_N_char (Z.to_N (y `div` 1000)))
      (String (pretty_N_char (Z.to_N ((y `div` 100) `mod` 10)))
         (String (pretty_N_char (Z.to_N ((y `div` 10) `mod` 10)))
            (String (pretty_N_char (Z.to_N (y `mod` 10))) EmptyString))).
Proof.
  intros Hy. rewrite pretty_positive_digits by lia.
  rewrite (pretty_N_go_step (Z.to_N y)) by lia.
  rewrite (pretty_N_go_step (Z.to_N y `div` 10)) by divlia.
  rewrite (pretty_N_go_step ((Z.to_N y `div` 10) `div` 10)) by divlia.
  rewrite (pretty_N_go_step (((Z.to_N y `div` 10) `div` 10) `div` 10)) by divlia.
  replace ((((Z.to_N y `div` 10) `div` 10) `div` 10) `div` 10)%N with 0%N by divlia.
  rewrite pretty_N_go_0.
  f_equal; [f_equal; divlia|].
  f_equal; [f_equal; divlia|].
  f_equal; [f_equal; divlia|].
  f_equal. f_equal. divlia.
Qed.

Lemma digit_compare (a b : Z) :
  0 <= a < 10 -> 0 <= b < 10 ->
  Ascii.compare (pretty_N_char (Z.to_N a)) (pretty_N_char (Z.to_N b)) = (a ?= b).
Proof.
  intros Ha Hb.
  assert (a = 0 \/ a = 1 \/ a = 2 \/ a = 3 \/ a = 4 \/ a = 5 \/ a = 6 \/ a = 7
          \/ a = 8 \/ a = 9) as Hda by lia.
  assert (b = 0 \/ b = 1 \/ b = 2 \/ b = 3 \/ b = 4 \/ b = 5 \/ b = 6 \/ b = 7
          \/ b = 8 \/ b = 9) as Hdb by lia.
  destruct_or!; subst; reflexivity.
Qed.

Lemma compare_cons (c1 c2 : ascii) (s1 s2 : string) :
  String.compare (String c1 s1) (String c2 s2)
  = match Ascii.compare c1 c2 with
    | Eq => String.compare s1 s2
    | Lt => Lt
    | Gt => Gt
    end.
Proof. reflexivity. Qed.

Lemma compare_two_digits (r1 r2 : Z) (t1 t2 : string) :
  0 <= r1 < 60 -> 0 <= r2 < 60 ->
  String.compare (CallLogDisplay.padStart2 (pretty r1) +:+ t1)
                 (CallLogDisplay.padStart2 (pretty r2) +:+ t2)
  = match r1 ?= r2 with Eq => String.compare t1 t2 | Lt => Lt | Gt => Gt end.
Proof.
  intros H1 H2. rewrite !CallLogDisplayProps.seconds_two_digits by done.
  rewrite !append_cons. change (EmptyString +:+ t1) with t1.
  change (EmptyString +:+ t2) with t2.
  rewrite !compare_cons, !digit_compare by divlia.
  destruct (Z.compare_spec (r1 `div` 10) (r2 `div` 10));
    [destruct (Z.compare_spec (r1 `mod` 10) (r2 `mod` 10))|..];
    destruct (Z.compare_spec r1 r2); try reflexivity; exfalso; divlia.
Qed.

Lemma compare_two_digits_end (r1 r2 : Z) :
  0 <= r1 < 60 -> 0 <= r2 < 60 ->
  String.compare (CallLogDisplay.padStart2 (pretty r1))
                 (CallLogDisplay.padStart2 (pretty r2))
  = (r1 ?= r2).
Proof.
  intros H1 H2.
  pose proof (compare_two_digits r1 r2 EmptyString EmptyString H1 H2) as H.
  rewrite !append_nil_r in H. rewrite H. by destruct (r1 ?= r2).
Qed.

Lemma compare_four_digits (y1 y2 : Z) (t1 t2 : string) :
  1000 <= y1 <= 9999 -> 1000 <= y2 <= 9999 ->
  String.compare (pretty y1 +:+ t1) (pretty y2 +:+ t2)
  = match y1 ?= y2 with Eq => String.compare t1 t2 | Lt => Lt | Gt => Gt end.
Proof.
  intros H1 H2. rewrite !pretty_four_digits by done.
  rewrite !append_cons. change (EmptyString +:+ t1) with t1.
  change (EmptyString +:+ t2) with t2.
  rewrite !compare_cons, !digit_compare by divlia.
  destruct (Z.compare_spec (y1 `div` 1000) (y2 `div` 1000));
    [destruct (Z.compare_spec ((y1 `div` 100) `mod` 10) ((y2 `div` 100) `mod` 10));
     [destruct (Z.compare_spec ((y1 `div` 10) `mod` 10) ((y2 `div` 10) `mod` 10));
      [destruct (Z.compare_spec (y1 `mod` 10) (y2 `mod` 10))|..]|..]|..];
    destruct (Z.compare_spec y1 y2); try reflexivity; exfalso; divlia.
Qed.

Lemma date_string_compare (d1 d2 : LocalDate) :
  fourDigitYear d1 -> fourDigitYear d2 ->
  String.compare (getLocalDateString d1) (getLocalDateString d2)
  = match fullYear d1 ?= fullYear d2 with
    | Eq => match month0 d1 ?= month0 d2 with
            | Eq => dayOfMonth d1 ?= dayOfMonth d2
            | Lt => Lt
            | Gt => Gt
            end
    | Lt => Lt
    | Gt => Gt
    end.
Proof.
  intros (Hy1 & Hm1 & Hd1) (Hy2 & Hm2 & Hd2). unfold getLocalDateString.
  rewrite compare_four_digits by done.
  destruct (fullYear d1 ?= fullYear d2); [|done..].
  rewrite !append_cons, !append_nil_l, compare_cons.
  change (Ascii.compare "-" "-") with Eq. cbv iota.
  rewrite compare_two_digits by lia.
  rewrite (Z.add_comm (month0 d1) 1), (Z.add_comm (month0 d2) 1),
    Z.add_compare_mono_l.
  destruct (month0 d1 ?= month0 d2); [|done..].
  rewrite compare_cons.
  change (Ascii.compare "-" "-") with Eq. cbv iota.
  by rewrite compare_two_digits_end by lia.
Qed.

Lemma date_strings_ordered (d1 d2 : LocalDate) :
  fourDigitYear d1 -> fourDigitYear d2 ->
  String.leb (getLocalDateString d1) (getLocalDateString d2) = true
  <-> notAfter d1 d2.
Proof.
  intros H1 H2.
  unfold String.leb. rewrite date_string_compare by done. unfold notAfter.
  destruct (Z.compare_spec (fullYear d1) (fullYear d2));
    [destruct (Z.compare_spec (month0 d1) (month0 d2));
     [destruct (Z.compare_spec (dayOfMonth d1) (dayOfMonth d2))|..]|..];
    split; try done; try lia; intros; exfalso; lia.
Qed.

(** X16: for dates with four-digit years, the strings [getLocalDateString]
    produces are ordered as the dates are: one string is at most the other
    (in the order JavaScript compares strings) exactly when its date is the
    same or an earlier day. Each such string has ten characters. *)
Theorem getLocalDateString_order (d1 d2 : LocalDate) :
  fourDigitYear d1 -> fourDigitYear d2 ->
  (String.leb (getLocalDateString d1) (getLocalDateString d2) = true
   <-> notAfter d1 d2) /\
  String.length (getLocalDateString d1) = 10%nat.
Proof.
  intros H1 H2. split; [by apply date_strings_ordered|].
  destruct H1 as (Hy & Hm & Hd). unfold getLocalDateString.
  rewrite pretty_four_digits by done.
  rewrite !CallLogDisplayProps.seconds_two_digits by lia. reflexivity.
Qed.

Lemma getLocalDateString_order_witness :
  (String.leb
     (getLocalDateString {| fullYear := 2026; month0 := 0; dayOfMonth := 31 |})
     (getLocalDateString {| fullYear := 2026; month0 := 1; dayOfMonth := 3 |})
   = true
   <-> notAfter {| fullYear := 2026; month0 := 0; dayOfMonth := 31 |}
                {| fullYear := 2026; month0 := 1; dayOfMonth := 3 |}) /\
  String.length
    (getLocalDateString {| fullYear := 2026; month0 := 0; dayOfMonth := 31 |})
  = 10%nat.
Proof.
  apply (getLocalDateString_order
           {| fullYear := 2026; month0 := 0; dayOfMonth := 31 |}
           {| fullYear := 2026; month0 := 1; dayOfMonth := 3 |});
    unfold fourDigitYear; simpl; lia.
Defined.

Example getLocalDateString_example :
  getLocalDateString {| fullYear := 2026; month0 := 1; dayOfMonth := 3 |}
  = "2026-02-03".
Proof. reflexivity. Qed.

End DateStringProps.

Module DashboardProps.
Import Dashboard.

Lemma str_ge_refl (a : string) : str_ge a a = true.
Proof.
  unfold str_ge, String.leb.
  assert (String.compare a a = Eq) as ->; [|done].
  induction a as [|c a IH]; [done|]. simpl.
  unfold Ascii.compare. by rewrite N.compare_refl.
Qed.

Lemma filter_sublist {A} (f : A -> bool) (l : list A) :
  List.filter f l `sublist_of` l.
Proof.
  induction l as [|x l IH]; [done|]. simpl.
  destruct (f x); [by apply sublist_skip | by apply sublist_cons].
Qed.

(** X17: the Upcoming Reservations card never lists more than five
    reservations; those it lists are confirmed reservations from the fetched
    list, in the order they were fetched; and with dates written the way
    [getLocalDateString] writes them (four-digit years) none of them is for a
    day before today. *)
Theorem upcomingReservations_sound
    (reservations : option (list ReservationResponse)) (now : Utils.LocalDate) :
  let today := Utils.getLocalDateString now in
  let upcoming := upcomingReservations reservations today in
  (length upcoming <= 5)%nat /\
  upcoming `sublist_of` default [] reservations /\
  (forall r, r ∈ upcoming -> status r = confirmed) /\
  (Utils.fourDigitYear now ->
   forall r day, r ∈ upcoming -> Utils.fourDigitYear day ->
     reservation_date r = Utils.getLocalDateString day ->
     Utils.notAfter now day).
Proof.
  intros today upcoming. subst upcoming. unfold upcomingReservations.
  assert (Hin : forall r,
            r ∈ take 5 (List.filter
                          (fun r => str_ge (reservation_date r) today
                                    && bool_decide (status r = confirmed))
                          (default [] reservations)) ->
            str_ge (reservation_date r) today = true /\ status r = confirmed).
  { intros r Hr.
    pose proof (elem_of_sublist _ _ _ Hr (sublist_take _ 5)) as Hr'.
    apply list_elem_of_In, filter_In in Hr' as [_ Hok].
    apply andb_prop in Hok as [Hge Hst].
    split; [done | by apply bool_decide_eq_true in Hst]. }
  split; [rewrite length_take; lia|].
  split; [etrans; [apply sublist_take | apply filter_sublist]|].
  split; [intros r Hr; by apply Hin|].
  intros Hnow r day Hr Hday Hdate.
  apply Hin in Hr as [Hge _]. unfold str_ge in Hge. rewrite Hdate in Hge.
  by apply (DateStringProps.date_strings_ordered now day).
Qed.

Lemma upcomingReservations_sound_witness :
  status {| id := "r1"; customer_name := None; party_size := 4;
            reservation_date := "2026-02-03"; reservation_time := "20:00";
            status := confirmed |} = confirmed.
Proof.
  apply (upcomingReservations_sound
           (Some [ {| id := "r0"; customer_name := None; party_size := 2;
                      reservation_date := "2026-01-31"; reservation_time := "19:00";
                      status := confirmed |};
                   {| id := "r1"; customer_name := None; party_size := 4;
                      reservation_date := "2026-02-03"; reservation_time := "20:00";
                      status := confirmed |} ])
           {| Utils.fullYear := 2026; Utils.month0 := 1; Utils.dayOfMonth := 1 |}).
  vm_compute. by left.
Defined.

Lemma confirmed_today_among_upcoming
    (reservations : list ReservationResponse) (today : string) (r : ReservationResponse) :
  In r (List.filter (fun r => bool_decide (status r = confirmed))
                    (todayReservations (Some reservations) today)) ->
  In r (List.filter (fun r => str_ge (reservation_date r) today
                              && bool_decide (status r = confirmed))
                    reservations).
Proof.
  unfold todayReservations. simpl. rewrite !filter_In.
  intros [[Hin Hdate] Hst]. split; [done|].
  apply String.eqb_eq in Hdate as ->. by rewrite str_ge_refl.
Qed.

Lemma fold_sum_from (l : list ReservationResponse) (start : Z) :
  fold_left (fun sum r => sum + party_size r) l start
  = start + fold_left (fun sum r => sum + party_size r) l 0.
Proof.
  revert start. induction l as [|r l IH]; intros start; simpl; [lia|].
  rewrite (IH (start + party_size r)), (IH (0 + party_size r)). lia.
Qed.

(** X18: the two reservation cards agree. When the Upcoming Reservations
    card is empty, the Reservations Today card shows zero confirmed
    reservations and zero guests expected. *)
Theorem no_upcoming_means_none_today
    (reservations : option (list ReservationResponse)) (today : string) :
  upcomingReservations reservations today = [] ->
  confirmedToday reservations today = 0%nat /\ totalGuests reservations today = 0.
Proof.
  unfold upcomingReservations, confirmedToday, totalGuests.
  destruct reservations as [reservations|]; [|done].
  intros Hnone. apply take_nil_inv in Hnone as [|Hnone]; [done|].
  assert (List.filter (fun r => bool_decide (status r = confirmed))
                      (todayReservations (Some reservations) today) = []) as ->;
    [|done].
  destruct (List.filter _ (todayReservations _ _)) as [|r rest] eqn:Hf; [done|].
  exfalso.
  assert (Hr : In r (r :: rest)) by (by left). rewrite <- Hf in Hr.
  apply confirmed_today_among_upcoming in Hr. simpl in Hnone.
  by rewrite Hnone in Hr.
Qed.

Lemma no_upcoming_means_none_today_witness :
  confirmedToday
    (Some [ {| id := "r0"; customer_name := None; party_size := 2;
               reservation_date := "2026-01-31"; reservation_time := "19:00";
               status := confirmed |};
            {| id := "r1"; customer_name := None; party_size := 4;
               reservation_date := "2026-02-03"; reservation_time := "20:00";
               status := cancelled |} ])
    "2026-02-03" = 0%nat /\
  totalGuests
    (Some [ {| id := "r0"; customer_name := None; party_size := 2;
               reservation_date := "2026-01-31"; reservation_time := "19:00";
               status := confirmed |};
            {| id := "r1"; customer_name := None; party_size := 4;
               reservation_date := "2026-02-03"; reservation_time := "20:00";
               status := cancelled |} ])
    "2026-02-03" = 0.
Proof.
  apply no_upcoming_means_none_today. reflexivity.
Defined.

(** X19: when every fetched reservation has a party size of at least one,
    the number of guests expected today is at least the number of confirmed
    reservations today. *)
Theorem guests_at_least_reservations
    (reservations : option (list ReservationResponse)) (today : string) :
  Forall (fun r => 1 <= party_size r) (default [] reservations) ->
  Z.of_nat (confirmedToday reservations today) <= totalGuests reservations today.
Proof.
  intros Hall. unfold confirmedToday, totalGuests.
  assert (Hsub : Forall (fun r => 1 <= party_size r)
            (List.filter (fun r => bool_decide (status r = confirmed))
                         (todayReservations reservations today))).
  { rewrite Forall_forall in Hall |- *. intros r Hr.
    apply list_elem_of_In, filter_In in Hr as [Hr _].
    unfold todayReservations in Hr. apply filter_In in Hr as [Hr _].
    by apply Hall, list_elem_of_In. }
  induction Hsub as [|r l Hr _ IH]; simpl; [lia|].
  rewrite fold_sum_from. lia.
Qed.

Lemma guests_at_least_reservations_witness :
  Z.of_nat
    (confirmedToday
       (Some [ {| id := "r1"; customer_name := None; party_size := 4;
                  reservation_date := "2026-02-03"; reservation_time := "20:00";
                  status := confirmed |} ]) "2026-02-03")
  <= totalGuests
       (Some [ {| id := "r1"; customer_name := None; party_size := 4;
                  reservation_date := "2026-02-03"; reservation_time := "20:00";
                  status := confirmed |} ]) "2026-02-03".
Proof.
  apply guests_at_least_reservations. repeat constructor. simpl. lia.
Defined.

End DashboardProps.

Module KnowledgeProps.
Import Knowledge.

Lemma count_partition (l : list KnowledgeItem) :
  (length (List.filter (fun i => bool_decide (category i = menu_item)) l)
   + length (List.filter (fun i => bool_decide (category i = faq)) l)
   + length (List.filter (fun i => bool_decide (category i = policy)) l)
   + length (List.filter (fun i => bool_decide (category i = announcement)) l)
   = length l)%nat.
Proof.
  induction l as [|[t []] l IH]; simpl; lia.
Qed.

(** X20: on the Knowledge Test page the four category counts add up to the
    total, for every list of items and also before the items have loaded. *)
Theorem stats_add_up (allItems : option (list KnowledgeItem)) :
  (menuItems (stats allItems) + faqs (stats allItems)
   + policies (stats allItems) + announcements (stats allItems)
   = total (stats allItems))%nat.
Proof. unfold stats, countOf. simpl. apply count_partition. Qed.

(** X21: in the FAQ editor with All selected, no menu item is shown, and
    every shown item is in exactly one of the three groups: the sizes of the
    FAQ, policy and announcement groups add up to the number of items shown.
    With a category selected the fetched items are shown unfiltered. *)
Theorem faq_groups_partition (allItems : option (list KnowledgeItem)) :
  Forall (fun item => category item <> menu_item) (items allItems all) /\
  (length (group (items allItems all) faq)
   + length (group (items allItems all) policy)
   + length (group (items allItems all) announcement)
   = length (items allItems all))%nat /\
  (forall c, items allItems (only c) = default [] allItems).
Proof.
  split; [|split].
  - apply Forall_forall. intros item Hin.
    apply list_elem_of_In, filter_In in Hin as [_ Hok].
    apply negb_true_iff, bool_decide_eq_false in Hok. done.
  - unfold group.
    pose proof (count_partition (items allItems all)) as Hsum.
    assert (List.filter (fun i => bool_decide (category i = menu_item))
                        (items allItems all) = []) as Hnone.
    { unfold items. induction (default [] allItems) as [|[t []] l IH]; simpl; done. }
    rewrite Hnone in Hsum. simpl in Hsum. lia.
  - intros c. unfold items.
    induction (default [] allItems) as [|i l IH]; simpl; [done|]. by rewrite IH.
Qed.

End KnowledgeProps.

Module NavigationProps.
Import Navigation.

(** X22: the sidebar and the router agree. The navigation links are pairwise
    distinct and are exactly the paths of the protected routes; on the page
    of a navigation item the heading is that item's name and that item alone
    is highlighted; on any other path the heading is Dashboard and no item is
    highlighted. *)
Theorem navigation_matches_routes :
  NoDup (href <$> allNavigation) /\
  (list_to_set (href <$> allNavigation) : gset string) = list_to_set protectedPaths /\
  Forall (fun item =>
            headerTitle (href item) = name item /\
            List.filter (isActive (href item)) allNavigation = [item])
         allNavigation /\
  (forall pathname, pathname ∉ href <$> allNavigation ->
     headerTitle pathname = "Dashboard" /\
     List.filter (isActive pathname) allNavigation = []).
Proof.
  split; [|split; [|split]].
  - apply NoDup_ListNoDup. vm_compute. repeat constructor; simpl; intuition discriminate.
  - vm_compute. reflexivity.
  - repeat constructor.
  - intros pathname Hnotin.
    assert (Hne : forall n, In n allNavigation -> href n <> pathname).
    { intros n Hn <-. apply Hnotin, list_elem_of_fmap. exists n.
      split; [done | by apply list_elem_of_In]. }
    unfold headerTitle, isActive. revert Hne.
    generalize allNavigation. intros l Hne.
    assert (List.find (fun n => String.eqb (href n) pathname) l = None) as ->.
    { induction l as [|n l IH]; [done|]. simpl.
      destruct (String.eqb_spec (href n) pathname) as [Heq|_].
      - exfalso. apply (Hne n); [by left | done].
      - apply IH. intros m Hm. apply Hne. by right. }
    split; [done|].
    induction l as [|n l IH]; [done|]. simpl.
    destruct (String.eqb_spec pathname (href n)) as [Heq|_].
    + exfalso. apply (Hne n); [by left | done].
    + apply IH. intros m Hm. apply Hne. by right.
Qed.

Lemma navigation_matches_routes_witness :
  headerTitle "/unauthorized" = "Dashboard" /\
  List.filter (isActive "/unauthorized") allNavigation = [].
Proof.
  apply navigation_matches_routes. vm_compute.
  intros H. repeat (apply elem_of_cons in H as [H|H]; [discriminate|]).
  by apply elem_of_nil in H.
Defined.

End NavigationProps.
